(** * eRPC session management: retry engine, packet codec, endpoint metadata

    A shallow embedding of the session-management plane of eRPC:
    [src/session.h] (endpoint metadata, the management packet and its
    in-place response), [src/rpc_impl/rpc_sm_retry.cc] (the management
    retry queue and its scan), [src/util/timer.cc] (the cycle counter) and
    the [Rpc] class declaration with its two retry constants.

    Stateful code is written in a small state-and-failure monad over the
    per-thread [Rpc] object; a failed [assert], a call of [exit] and a
    dereference of a dangling pointer are three distinct failures. *)

From Stdlib Require Import ZArith List Floats.
From Stdlib Require Import Strings.Byte.
From stdpp Require Import base option list gmap strings.
From Stdlib Require DecimalString.

Local Open Scope Z_scope.

(** ** Machine integers *)

(** A value of type [uint64_t]: arithmetic wraps modulo 2^64. *)
Definition u64 (z : Z) : Z := z mod 2 ^ 64.

Definition u64_sub (a b : Z) : Z := u64 (a - b).
Definition u64_shl (a : Z) (n : Z) : Z := u64 (Z.shiftl a n).

(** Conversion of an unsigned integer to [double], round to nearest even. *)
Definition double_of_Z (z : Z) : float :=
  SF2Prim (binary_normalize 53 1024 z 0 false).

(** ** C strings in fixed-width buffers *)

Definition NUL : byte := x00.

Definition uchar (c : byte) : Z := Z.of_N (Byte.to_N c).

(** [strcmp] of libc over two [char] buffers.  The end of a buffer reads as
    the terminator.  A buffer without a terminator is no C string: there the
    real [strcmp] runs on into what lies behind the buffer, which this
    function does not see, so a statement that reads its result as that of
    the code asks for a terminator in each buffer. *)
Fixpoint strcmp (a b : list byte) : Z :=
  match a, b with
  | [], [] => 0
  | x :: _, [] => uchar x - uchar NUL
  | [], y :: _ => uchar NUL - uchar y
  | x :: a', y :: b' =>
      if Byte.eqb x y
      then (if Byte.eqb x NUL then 0 else strcmp a' b')
      else uchar x - uchar y
  end.

(** The zero-terminated string a buffer holds. *)
Fixpoint c_str (a : list byte) : list byte :=
  match a with
  | [] => []
  | x :: a' => if Byte.eqb x NUL then [] else x :: c_str a'
  end.

(** ** Enumerations of [session.h] and of the session-management types *)

Module SessionState.
(** Session state that can only go forward. *)
Inductive t :=
| kConnectInProgress
| kConnected
| kDisconnectInProgress
| kDisconnected
| kError.

Definition eqb (a b : t) : bool :=
  match a, b with
  | kConnectInProgress, kConnectInProgress
  | kConnected, kConnected
  | kDisconnectInProgress, kDisconnectInProgress
  | kDisconnected, kDisconnected
  | kError, kError => true
  | _, _ => false
  end.
End SessionState.

Module SessionMgmtEventType.
(** Events generated for the application-level session management handler. *)
Inductive t :=
| kConnected
| kConnectFailed
| kDisconnected
| kDisconnectFailed.
End SessionMgmtEventType.

Module SessionMgmtErrType.
(** The error kinds a response carries, as [sm_err_type_str] lists them. *)
Inductive t :=
| kNoError
| kSrvDisconnected
| kRingExhausted
| kOutOfMemory
| kRoutingResolutionFailure
| kInvalidRemoteRpcId
| kInvalidTransport.
End SessionMgmtErrType.

Module SessionMgmtPktType.
(** Modelled from the spec: [session_mgmt_types.h] is not among the
    sources.  The four packet types of the wire protocol: Connect
    Req/Resp and Disconnect Req/Resp. *)
Inductive t :=
| kConnectReq
| kConnectResp
| kDisconnectReq
| kDisconnectResp.
End SessionMgmtPktType.

Module TransportType.
(** The transport kinds the sources name ([transport_types.h] is not among
    them). *)
Inductive t :=
| kInfiniBand
| kInvalidTransport.
End TransportType.

Module Role.
(** [Session::Role]. *)
Inductive t := kServer | kClient.

Definition eqb (a b : t) : bool :=
  match a, b with
  | kServer, kServer | kClient, kClient => true
  | _, _ => false
  end.
End Role.

(** Modelled from the spec: [session_mgmt_is_pkt_type_req] of
    [session_mgmt_types.h], which is not among the sources; the request
    types are Connect Req and Disconnect Req. *)
Definition session_mgmt_is_pkt_type_req (ty : SessionMgmtPktType.t) : bool :=
  match ty with
  | SessionMgmtPktType.kConnectReq | SessionMgmtPktType.kDisconnectReq => true
  | SessionMgmtPktType.kConnectResp | SessionMgmtPktType.kDisconnectResp => false
  end.

(** Modelled from the spec: [session_mgmt_pkt_type_req_to_resp] of
    [session_mgmt_types.h], which is not among the sources; it flips a
    request type to the corresponding response type.  A response type has no
    image ([None]). *)
Definition session_mgmt_pkt_type_req_to_resp (ty : SessionMgmtPktType.t)
  : option SessionMgmtPktType.t :=
  match ty with
  | SessionMgmtPktType.kConnectReq => Some SessionMgmtPktType.kConnectResp
  | SessionMgmtPktType.kDisconnectReq => Some SessionMgmtPktType.kDisconnectResp
  | SessionMgmtPktType.kConnectResp | SessionMgmtPktType.kDisconnectResp => None
  end.

(** ** Constants *)

Definition kMaxSessionsPerThread : Z := 1024.
Definition kInvalidAppTid : Z := 2 ^ 8 - 1.
Definition kInvalidSessionNum : Z := 2 ^ 32 - 1.
Definition kInvalidStartSeq : Z := 2 ^ 64 - 1.
Definition kInvalidPhyPort : Z := 2 ^ 8 - 1.

(** Retransmission and timeout for session-management requests, in ms. *)
Definition kSessionMgmtRetransMs : Z := 5.
Definition kSessionMgmtTimeoutMs : Z := 50.

(** ** SessionMetadata *)

(** Basic info about a session end point.  [hostname] is the
    [char hostname[kMaxHostnameLen]] buffer, [routing_info] the bytes of the
    opaque [RoutingInfo]. *)
Record SessionMetadata := mkSessionMetadata {
  transport_type : TransportType.t;
  hostname : list byte;
  app_tid : Z;
  phy_port : Z;
  session_num : Z;
  start_seq : Z;
  routing_info : list byte
}.

(** The default constructor fills invalid metadata; [hlen] and [rlen] are the
    sizes of the two buffers it zeroes. *)
Definition SessionMetadata_default (hlen rlen : nat) : SessionMetadata :=
  {| transport_type := TransportType.kInvalidTransport;
     hostname := repeat NUL hlen;
     app_tid := kInvalidAppTid;
     phy_port := kInvalidPhyPort;
     session_num := kInvalidSessionNum;
     start_seq := kInvalidStartSeq;
     routing_info := repeat NUL rlen |}.

(** [SessionMetadata::operator==]: compares the location fields. *)
Definition SessionMetadata_eq (a other : SessionMetadata) : bool :=
  (strcmp (hostname a) (hostname other) =? 0)
  && (app_tid a =? app_tid other)
  && (session_num a =? session_num other).

(** ** The management packet and the UDP hand-off *)

Module SessionMgmtPkt.
(** General-purpose session management packet.  [err_type] is written for
    responses only: the one-argument constructor leaves it unwritten
    ([None]). *)
Record t := mk {
  pkt_type : SessionMgmtPktType.t;
  err_type : option SessionMgmtErrType.t;
  client : SessionMetadata;
  server : SessionMetadata
}.
End SessionMgmtPkt.

(** The fields of [udp_config_t] that [send_to] reads. *)
Record udp_config_t := mk_udp_config {
  mgmt_udp_port : Z;
  drop_prob : float
}.

(** One call of [UDPClient::send]: the destination the client was built
    for, and the packet handed over by value. *)
Record Datagram := mkDatagram {
  dg_hostname : list byte;
  dg_port : Z;
  dg_drop_prob : float;
  dg_payload : SessionMgmtPkt.t
}.

(** ** Outcomes and the state monad *)

Inductive Outcome (A : Type) : Type :=
| Ok (a : A)
| AssertFail
| Exit (status : Z)
| Fault.
Arguments Ok {A} a.
Arguments AssertFail {A}.
Arguments Exit {A} status.
Arguments Fault {A}.

Definition M (St A : Type) : Type := St -> Outcome (A * St).

Definition ret {St A} (a : A) : M St A := fun st => Ok (a, st).

Definition bind {St A B} (m : M St A) (k : A -> M St B) : M St B :=
  fun st =>
    match m st with
    | Ok (a, st') => k a st'
    | AssertFail => AssertFail
    | Exit c => Exit c
    | Fault => Fault
    end.

Definition get {St} : M St St := fun st => Ok (st, st).
Definition put {St} (st : St) : M St unit := fun _ => Ok (tt, st).
Definition gets {St A} (f : St -> A) : M St A := fun st => Ok (f st, st).
Definition modify {St} (f : St -> St) : M St unit := fun st => Ok (tt, f st).

(** [assert(b)] of a build with assertions on. *)
Definition assert {St} (b : bool) : M St unit :=
  fun st => if b then Ok (tt, st) else AssertFail.

Definition exit {St A} (status : Z) : M St A := fun _ => Exit status.
Definition fault {St A} : M St A := fun _ => Fault.

Declare Scope monad_scope.
Delimit Scope monad_scope with monad.
Notation "x <- m ;; k" := (bind m (fun x => k))
  (at level 100, m at next level, right associativity) : monad_scope.
Notation "m ;; k" := (bind m (fun _ => k))
  (at level 100, right associativity) : monad_scope.
Local Open Scope monad_scope.

(** [SessionMgmtPkt::send_to]: send this packet as is.  [dst_hostname] is a
    [const char *], [None] being [NULL]; the UDP client is built for the C
    string behind it.  The byte count that [UDPClient::send] returns is
    outside the model, so the assertion on it is not represented. *)
Definition send_to (this : SessionMgmtPkt.t) (dst_hostname : option (list byte))
    (udp_config : udp_config_t) : M (list Datagram) unit :=
  assert (bool_decide (dst_hostname <> None)) ;;
  match dst_hostname with
  | Some dst =>
      modify (fun net =>
        net ++ [mkDatagram (c_str dst) (mgmt_udp_port udp_config)
                           (drop_prob udp_config) this])
  | None => fault
  end.

(** [SessionMgmtPkt::send_resp_mut]: send the response to this request
    packet, using this packet as the response buffer.  Returns the packet as
    mutated.  The branch for a type without a response type lies behind the
    assertion and is never reached. *)
Definition send_resp_mut (this : SessionMgmtPkt.t)
    (_err_type : SessionMgmtErrType.t) (udp_config : udp_config_t)
  : M (list Datagram) SessionMgmtPkt.t :=
  assert (session_mgmt_is_pkt_type_req (SessionMgmtPkt.pkt_type this)) ;;
  match session_mgmt_pkt_type_req_to_resp (SessionMgmtPkt.pkt_type this) with
  | None => exit (-1)
  | Some resp =>
      let this1 :=
        SessionMgmtPkt.mk resp (SessionMgmtPkt.err_type this)
          (SessionMgmtPkt.client this) (SessionMgmtPkt.server this) in
      let this2 :=
        SessionMgmtPkt.mk (SessionMgmtPkt.pkt_type this1) (Some _err_type)
          (SessionMgmtPkt.client this1) (SessionMgmtPkt.server this1) in
      send_to this2 (Some (hostname (SessionMgmtPkt.client this2))) udp_config ;;
      ret this2
  end.

(** ** Sessions and the per-thread Rpc object *)

Module Session.
(** A one-to-one session.  [mgmt_req_tsc] is the timestamp of the last
    management request, which the retry code reaches as
    [client_info.mgmt_req_tsc]; [is_client] is the test on the role that the
    retry code calls. *)
Record t := mk {
  role : Role.t;
  state : SessionState.t;
  client : SessionMetadata;
  server : SessionMetadata;
  mgmt_req_tsc : Z;
  is_cc : bool
}.

Definition is_client (s : t) : bool := Role.eqb (role s) Role.kClient.

Definition set_mgmt_req_tsc (s : t) (tsc : Z) : t :=
  mk (role s) (state s) (client s) (server s) tsc (is_cc s).

Definition set_state (s : t) (st : SessionState.t) : t :=
  mk (role s) st (client s) (server s) (mgmt_req_tsc s) (is_cc s).
End Session.

(** A [Session *]: an address, [nullptr] being 0. *)
Abbreviation ptr := N (only parsing).
Definition nullptr : ptr := 0%N.

(** The part of the Nexus the retry engine reads. *)
Record Nexus := mkNexus {
  freq_ghz : float;
  udp_config : udp_config_t
}.

(** One invocation of the application's [session_mgmt_handler]. *)
Record HandlerCall := mkHandlerCall {
  hc_session : ptr;
  hc_event : SessionMgmtEventType.t;
  hc_err : SessionMgmtErrType.t
}.

(** The per-thread Rpc object together with what its methods act on: the
    [Session] objects behind the pointers it holds, the handler invocations
    and UDP sends made so far, and the cycle counter ([tsc k] are the
    registers [(rax, rdx)] the [k]-th [rdtsc] instruction loads). *)
Record Rpc := mkRpc {
  nexus : Nexus;
  session_vec : list ptr;
  mgmt_retry_queue : list ptr;
  sessions : gmap N Session.t;
  handler_calls : list HandlerCall;
  udp_out : list Datagram;
  tsc : nat -> Z * Z;
  tsc_reads : nat
}.

Definition with_session_vec (w : Rpc) (v : list ptr) : Rpc :=
  mkRpc (nexus w) v (mgmt_retry_queue w) (sessions w) (handler_calls w)
        (udp_out w) (tsc w) (tsc_reads w).
Definition with_mgmt_retry_queue (w : Rpc) (q : list ptr) : Rpc :=
  mkRpc (nexus w) (session_vec w) q (sessions w) (handler_calls w)
        (udp_out w) (tsc w) (tsc_reads w).
Definition with_sessions (w : Rpc) (h : gmap N Session.t) : Rpc :=
  mkRpc (nexus w) (session_vec w) (mgmt_retry_queue w) h (handler_calls w)
        (udp_out w) (tsc w) (tsc_reads w).
Definition with_handler_calls (w : Rpc) (l : list HandlerCall) : Rpc :=
  mkRpc (nexus w) (session_vec w) (mgmt_retry_queue w) (sessions w) l
        (udp_out w) (tsc w) (tsc_reads w).
Definition with_udp_out (w : Rpc) (net : list Datagram) : Rpc :=
  mkRpc (nexus w) (session_vec w) (mgmt_retry_queue w) (sessions w)
        (handler_calls w) net (tsc w) (tsc_reads w).
Definition with_tsc_reads (w : Rpc) (n : nat) : Rpc :=
  mkRpc (nexus w) (session_vec w) (mgmt_retry_queue w) (sessions w)
        (handler_calls w) (udp_out w) (tsc w) n.

(** Run a packet method on the Rpc's UDP output. *)
Definition on_udp {A} (m : M (list Datagram) A) : M Rpc A :=
  fun w =>
    match m (udp_out w) with
    | Ok (a, net) => Ok (a, with_udp_out w net)
    | AssertFail => AssertFail
    | Exit c => Exit c
    | Fault => Fault
    end.

(** [*session]; a pointer with no live object behind it faults. *)
Definition deref (session : ptr) : M Rpc Session.t :=
  fun w =>
    match sessions w !! session with
    | Some s => Ok (s, w)
    | None => Fault
    end.

(** [*session = s] through a valid pointer. *)
Definition store (session : ptr) (s : Session.t) : M Rpc unit :=
  fun w =>
    match sessions w !! session with
    | Some _ => Ok (tt, with_sessions w (<[session := s]> (sessions w)))
    | None => Fault
    end.

(** ** The cycle counter ([util/timer.cc]) *)

Definition rdtsc_value (regs : Z * Z) : Z :=
  let rax := u64 (fst regs) in
  let rdx := u64 (snd regs) in
  Z.lor (u64_shl rdx 32) rax.

Definition rdtsc : M Rpc Z :=
  fun w => Ok (rdtsc_value (tsc w (tsc_reads w)), with_tsc_reads w (S (tsc_reads w))).

Definition to_usec (cycles : Z) (freq_ghz : float) : float :=
  (double_of_Z cycles / (freq_ghz * double_of_Z 1000))%float.

(** Modelled from the spec: [to_sec] of [util/timer.h], which is not among
    the sources; cycles to seconds at [freq_ghz] cycles per nanosecond, as
    [to_usec] above does for microseconds. *)
Definition to_sec (cycles : Z) (freq_ghz : float) : float :=
  (double_of_Z cycles / (freq_ghz * double_of_Z 1000000000))%float.

(** [a > b] on [double]. *)
Definition double_gt (a b : float) : bool := PrimFloat.ltb b a.

(** ** The management retry queue ([rpc_impl/rpc_sm_retry.cc]) *)

Definition send_connect_req_one (session : ptr) : M Rpc unit :=
  assert (negb (N.eqb session nullptr)) ;;
  s <- deref session ;;
  assert (Session.is_client s) ;;
  assert (SessionState.eqb (Session.state s) SessionState.kConnectInProgress) ;;
  nx <- gets nexus ;;
  let connect_req :=
    SessionMgmtPkt.mk SessionMgmtPktType.kConnectReq None
      (Session.client s) (Session.server s) in
  on_udp (send_to connect_req (Some (hostname (Session.server s))) (udp_config nx)).

Definition send_disconnect_req_one (session : ptr) : M Rpc unit :=
  assert (negb (N.eqb session nullptr)) ;;
  s <- deref session ;;
  assert (Session.is_client s) ;;
  assert (SessionState.eqb (Session.state s) SessionState.kDisconnectInProgress) ;;
  nx <- gets nexus ;;
  let connect_req :=
    SessionMgmtPkt.mk SessionMgmtPktType.kDisconnectReq None
      (Session.client s) (Session.server s) in
  on_udp (send_to connect_req (Some (hostname (Session.server s))) (udp_config nx)).

Definition mgmt_retry_queue_contains (session : ptr) : M Rpc bool :=
  q <- gets mgmt_retry_queue ;;
  ret (bool_decide (session ∈ q)).

Definition mgmt_retry_queue_add (session : ptr) : M Rpc unit :=
  assert (negb (N.eqb session nullptr)) ;;
  s <- deref session ;;
  assert (Session.is_client s) ;;
  assert (Session.is_client s) ;;
  c <- mgmt_retry_queue_contains session ;;
  assert (negb c) ;;
  now <- rdtsc ;;
  store session (Session.set_mgmt_req_tsc s now) ;;
  modify (fun w => with_mgmt_retry_queue w (mgmt_retry_queue w ++ [session])).

Definition mgmt_retry_queue_remove (session : ptr) : M Rpc unit :=
  assert (negb (N.eqb session nullptr)) ;;
  s <- deref session ;;
  assert (Session.is_client s) ;;
  c <- mgmt_retry_queue_contains session ;;
  assert c ;;
  q <- gets mgmt_retry_queue ;;
  let initial_size := Z.of_nat (length q) in
  modify (fun w =>
    with_mgmt_retry_queue w (filter (fun x => x <> session) (mgmt_retry_queue w))) ;;
  q' <- gets mgmt_retry_queue ;;
  assert (Z.of_nat (length q') =? u64 (initial_size - 1)).

(** [elapsed_ms > kSessionMgmtRetransMs] for a request last sent at
    [mgmt_req_tsc], seen at [cur_tsc]. *)
Definition elapsed_cycles (cur_tsc mgmt_req_tsc : Z) : Z :=
  u64_sub cur_tsc mgmt_req_tsc.

Definition elapsed_ms (nx : Nexus) (cur_tsc mgmt_req_tsc : Z) : float :=
  (to_sec (elapsed_cycles cur_tsc mgmt_req_tsc) (freq_ghz nx) * double_of_Z 1000)%float.

(** The body of the loop of [mgmt_retry], for one element of the queue. *)
Definition mgmt_retry_body (cur_tsc : Z) (session : ptr) : M Rpc unit :=
  assert (negb (N.eqb session nullptr)) ;;
  s <- deref session ;;
  let state := Session.state s in
  assert (SessionState.eqb state SessionState.kConnectInProgress
          || SessionState.eqb state SessionState.kDisconnectInProgress) ;;
  assert (0 <? elapsed_cycles cur_tsc (Session.mgmt_req_tsc s)) ;;
  nx <- gets nexus ;;
  if double_gt (elapsed_ms nx cur_tsc (Session.mgmt_req_tsc s))
               (double_of_Z kSessionMgmtRetransMs)
  then
    match state with
    | SessionState.kConnectInProgress => send_connect_req_one session
    | SessionState.kDisconnectInProgress => send_disconnect_req_one session
    | _ => assert false ;; exit (-1)
    end ;;
    now <- rdtsc ;;
    s' <- deref session ;;
    store session (Session.set_mgmt_req_tsc s' now)
  else ret tt.

(** The range-based [for] over the queue. *)
Fixpoint mgmt_retry_loop (cur_tsc : Z) (queue : list ptr) : M Rpc unit :=
  match queue with
  | [] => ret tt
  | session :: rest =>
      mgmt_retry_body cur_tsc session ;;
      mgmt_retry_loop cur_tsc rest
  end.

Definition mgmt_retry : M Rpc unit :=
  q <- gets mgmt_retry_queue ;;
  assert (0 <? Z.of_nat (length q)) ;;
  cur_tsc <- rdtsc ;;
  mgmt_retry_loop cur_tsc q.

(** Modelled from the spec: [run_event_loop_one] is declared in [rpc.h] and
    its definition is missing; every tick of the event loop scans the retry
    queue.  [n] ticks during which no management packet arrives are [n]
    invocations of [mgmt_retry] in a row. *)
Fixpoint mgmt_retry_times (n : nat) : M Rpc unit :=
  match n with
  | O => ret tt
  | S n' => mgmt_retry ;; mgmt_retry_times n'
  end.

(** ** The session-management API ([rpc.h] declares it)

    The definitions of these three methods are not among the sources; only
    their declarations and documentation comments are. *)

(** Modelled from the spec: [Rpc::is_session_ptr_client], declared in [rpc.h]
    ("check if this session pointer is a valid client session"), whose
    definition is missing: the pointer is not null, a client session lives
    behind it, and the slot of the session table at its local session number
    holds this pointer. *)
Definition is_session_ptr_client (session : ptr) : M Rpc bool :=
  w <- get ;;
  if N.eqb session nullptr then ret false
  else
    match sessions w !! session with
    | None => ret false
    | Some s =>
        ret (Session.is_client s
             && bool_decide
                  (session_vec w !! Z.to_nat (session_num (Session.client s))
                   = Some session))
    end.

(** Modelled from the spec: [Rpc::bury_session], declared in [rpc.h]
    ("destroy a session object and remove it from the session list"), whose
    definition is missing: the slot of the session becomes the null
    tombstone and the object is freed. *)
Definition bury_session (session : ptr) : M Rpc unit :=
  s <- deref session ;;
  let num :=
    if Session.is_client s then session_num (Session.client s)
    else session_num (Session.server s) in
  modify (fun w =>
    with_session_vec
      (with_sessions w (delete session (sessions w)))
      (<[Z.to_nat num := nullptr]> (session_vec w))).

(** The application's [session_mgmt_handler] is called. *)
Definition session_mgmt_handler (session : ptr)
    (ev : SessionMgmtEventType.t) (err : SessionMgmtErrType.t) : M Rpc unit :=
  modify (fun w =>
    with_handler_calls w (handler_calls w ++ [mkHandlerCall session ev err])).

(** Modelled from the spec: [Rpc::destroy_session], declared and documented
    in [rpc.h], whose definition is missing.  False if the session argument
    is invalid or connection establishment is in progress; a connected
    session moves to disconnect-in-progress, joins the retry queue and has
    its disconnect request sent; for a session in the error state the
    callback is invoked before the function returns, without a packet.  The
    spec does not say what a second call during a disconnect returns; it is
    taken to return false, as nothing can be done right now. *)
Definition destroy_session (session : ptr) : M Rpc bool :=
  valid <- is_session_ptr_client session ;;
  if negb valid then ret false
  else
    s <- deref session ;;
    match Session.state s with
    | SessionState.kConnectInProgress => ret false
    | SessionState.kConnected =>
        store session (Session.set_state s SessionState.kDisconnectInProgress) ;;
        mgmt_retry_queue_add session ;;
        send_disconnect_req_one session ;;
        ret true
    | SessionState.kDisconnectInProgress => ret false
    | SessionState.kDisconnected => ret false
    | SessionState.kError =>
        session_mgmt_handler session SessionMgmtEventType.kDisconnected
          SessionMgmtErrType.kNoError ;;
        bury_session session ;;
        ret true
    end.

(** ** Names for logging ([session.h]) *)

(** [std::to_string] of an unsigned integer: its decimal digits. *)
Definition to_string (z : Z) : string :=
  DecimalString.NilZero.string_of_uint (N.to_uint (Z.to_N z)).

Definition session_state_str (state : SessionState.t) : string :=
  match state with
  | SessionState.kConnectInProgress => "[Connect in progress]"
  | SessionState.kConnected => "[Connected]"
  | SessionState.kDisconnectInProgress => "[Disconnect in progress]"
  | SessionState.kDisconnected => "[Disconnected]"
  | SessionState.kError => "[Error]"
  end.

Definition session_mgmt_event_type_str
    (event_type : SessionMgmtEventType.t) : string :=
  match event_type with
  | SessionMgmtEventType.kConnected => "[Connected]"
  | SessionMgmtEventType.kConnectFailed => "[Connect failed]"
  | SessionMgmtEventType.kDisconnected => "[Disconnected]"
  | SessionMgmtEventType.kDisconnectFailed => "[kDisconnect failed]"
  end.

Section SessionMetadataNames.
(** [trim_hostname] of [common.h], which is not among the sources: it is
    handed the C string in the [hostname] buffer. *)
Variable trim_hostname : string -> string.

(** [SessionMetadata::name]: hostname, Rpc TID and session number. *)
Definition SessionMetadata_name (md : SessionMetadata) : string :=
  let session_num_str :=
    if session_num md =? kInvalidSessionNum then "XX"
    else to_string (session_num md) in
  "[H: " +:+ trim_hostname (String.string_of_list_byte (c_str (hostname md)))
  +:+ ", R: " +:+ to_string (app_tid md) +:+ ", S: " +:+ session_num_str
  +:+ "]".

(** [SessionMetadata::rpc_name]: the Rpc hosting this end point. *)
Definition SessionMetadata_rpc_name (md : SessionMetadata) : string :=
  "[H: " +:+ trim_hostname (String.string_of_list_byte (c_str (hostname md)))
  +:+ ", R: " +:+ to_string (app_tid md) +:+ "]".
End SessionMetadataNames.

(** ** Concrete values used by the examples below *)

(** The C string "c" and "s" in 8-byte buffers. *)
Definition ex_client_host : list byte := [x63; x00; x00; x00; x00; x00; x00; x00].
Definition ex_server_host : list byte := [x73; x00; x00; x00; x00; x00; x00; x00].

Definition ex_client_md : SessionMetadata :=
  mkSessionMetadata TransportType.kInfiniBand ex_client_host 0 0 0 7 [x01; x02].
Definition ex_server_md : SessionMetadata :=
  mkSessionMetadata TransportType.kInfiniBand ex_server_host 1 0
    kInvalidSessionNum kInvalidStartSeq [x00; x00].

(** A 1 GHz machine, no drops. *)
Definition ex_nexus : Nexus :=
  mkNexus (double_of_Z 1) (mk_udp_config 31850 (double_of_Z 0)).

(** A client session with the given state, whose last request left at cycle
    [tsc0]. *)
Definition ex_session (st : SessionState.t) (tsc0 : Z) : Session.t :=
  Session.mk Role.kClient st ex_client_md ex_server_md tsc0 false.

(** A cycle counter that shows 60 ms, 60 ms + 1 us, 120 ms, 120 ms + 1 us,
    ... at successive reads. *)
Definition ex_tsc (k : nat) : Z * Z :=
  (60000000 * (Z.of_nat (Nat.div2 k) + 1) + (if Nat.even k then 0 else 1000), 0).

(** An Rpc whose only session, at address 1 and in slot 0, is in state [st]
    and waits in the retry queue since cycle 0. *)
Definition ex_rpc (st : SessionState.t) : Rpc :=
  mkRpc ex_nexus [1%N] [1%N] {[ 1%N := ex_session st 0 ]} [] [] ex_tsc 0.

(** The same Rpc with an empty retry queue. *)
Definition ex_rpc_idle (st : SessionState.t) : Rpc :=
  mkRpc ex_nexus [1%N] [] {[ 1%N := ex_session st 0 ]} [] [] ex_tsc 0.

Definition ex_req (ty : SessionMgmtPktType.t) : SessionMgmtPkt.t :=
  SessionMgmtPkt.mk ty None ex_client_md ex_server_md.

(** An Rpc that holds its only session twice in the retry queue. *)
Definition ex_rpc_twice : Rpc :=
  mkRpc ex_nexus [1%N] [1%N; 1%N]
        {[ 1%N := ex_session SessionState.kConnectInProgress 0 ]} [] [] ex_tsc 0.

(** An Rpc whose only session sent its request 1 ms before the next read
    of the cycle counter. *)
Definition ex_rpc_recent (st : SessionState.t) : Rpc :=
  mkRpc ex_nexus [1%N] [1%N] {[ 1%N := ex_session st 59000000 ]} [] [] ex_tsc 0.

(** An Rpc with two queued client sessions, at addresses 1 and 2: the first
    connecting, the second disconnecting. *)
Definition ex_rpc_two : Rpc :=
  mkRpc ex_nexus [1%N; 2%N] [1%N; 2%N]
        (<[ 2%N := ex_session SessionState.kDisconnectInProgress 0 ]>
           {[ 1%N := ex_session SessionState.kConnectInProgress 0 ]})
        [] [] ex_tsc 0.

(** ** Notions the statements use *)

(** The session is waiting for the response to a management request. *)
Definition in_progress (st : SessionState.t) : bool :=
  SessionState.eqb st SessionState.kConnectInProgress
  || SessionState.eqb st SessionState.kDisconnectInProgress.

(** A terminal state of a client session. *)
Definition terminal (st : SessionState.t) : bool :=
  match st with
  | SessionState.kConnected | SessionState.kError | SessionState.kDisconnected => true
  | SessionState.kConnectInProgress | SessionState.kDisconnectInProgress => false
  end.

(** The test of [mgmt_retry]: [elapsed_ms > kSessionMgmtRetransMs]. *)
Definition retry_due (nx : Nexus) (cur_tsc : Z) (s : Session.t) : bool :=
  double_gt (elapsed_ms nx cur_tsc (Session.mgmt_req_tsc s))
            (double_of_Z kSessionMgmtRetransMs).

(** [elapsed_ms > kSessionMgmtTimeoutMs]. *)
Definition timeout_passed (nx : Nexus) (cur_tsc : Z) (s : Session.t) : bool :=
  double_gt (elapsed_ms nx cur_tsc (Session.mgmt_req_tsc s))
            (double_of_Z kSessionMgmtTimeoutMs).

(** The request type that matches a session state. *)
Definition req_type_of_state (st : SessionState.t) : option SessionMgmtPktType.t :=
  match st with
  | SessionState.kConnectInProgress => Some SessionMgmtPktType.kConnectReq
  | SessionState.kDisconnectInProgress => Some SessionMgmtPktType.kDisconnectReq
  | _ => None
  end.

(** A request of type [ty] for session [s] on its way to the server's host. *)
Definition request_datagram (nx : Nexus) (ty : SessionMgmtPktType.t)
    (s : Session.t) : Datagram :=
  mkDatagram (c_str (hostname (Session.server s)))
    (mgmt_udp_port (udp_config nx)) (drop_prob (udp_config nx))
    (SessionMgmtPkt.mk ty None (Session.client s) (Session.server s)).

(** What a scan at [cur_tsc] sends for the session behind [p], if anything. *)
Definition retransmission (w : Rpc) (cur_tsc : Z) (p : ptr) : option Datagram :=
  match sessions w !! p with
  | Some s =>
      if retry_due (nexus w) cur_tsc s
      then option_map (fun ty => request_datagram (nexus w) ty s)
                      (req_type_of_state (Session.state s))
      else None
  | None => None
  end.

(** The retry-queue invariant: no pointer is queued twice, and each queued
    pointer is a live client session in one of the two in-progress states. *)
Definition queued_ok (w : Rpc) (p : ptr) : Prop :=
  p <> nullptr /\
  exists s, sessions w !! p = Some s
            /\ Session.role s = Role.kClient
            /\ in_progress (Session.state s) = true.

Definition retry_queue_inv (w : Rpc) : Prop :=
  NoDup (mgmt_retry_queue w) /\
  forall p, p ∈ mgmt_retry_queue w -> queued_ok w p.

(** What a scan may change: of each session its [mgmt_req_tsc] only, and
    nothing of the session table, of the retry queue or of the handler
    invocations made so far. *)
Record retry_frame (w w' : Rpc) : Prop := mk_retry_frame {
  rf_nexus : nexus w' = nexus w;
  rf_session_vec : session_vec w' = session_vec w;
  rf_queue : mgmt_retry_queue w' = mgmt_retry_queue w;
  rf_handler_calls : handler_calls w' = handler_calls w;
  rf_tsc : tsc w' = tsc w;
  rf_live : forall p s, sessions w !! p = Some s ->
            exists t, sessions w' !! p = Some (Session.set_mgmt_req_tsc s t);
  rf_dead : forall p, sessions w !! p = None -> sessions w' !! p = None
}.

(** The cycle count the next [rdtsc] returns. *)
Definition next_tsc (w : Rpc) : Z := rdtsc_value (tsc w (tsc_reads w)).

(** The precondition of a scan on the timestamps: the request of each queued
    session left at a cycle count, a [uint64_t], that the counter has
    passed. *)
Definition timestamps_behind (w : Rpc) : Prop :=
  forall p s, p ∈ mgmt_retry_queue w -> sessions w !! p = Some s ->
              0 <= Session.mgmt_req_tsc s < next_tsc w.

(** The cycle counter advances, without wrapping, over the next [n] reads
    and the one that follows them. *)
Definition tsc_advances (w : Rpc) (n : nat) : Prop :=
  forall k : nat, (tsc_reads w <= k < tsc_reads w + n)%nat ->
                  rdtsc_value (tsc w k) < rdtsc_value (tsc w (S k)).

(** What must hold of a queued pointer for the loop body to pass its
    assertions at [cur_tsc]. *)
Definition scan_ready (w : Rpc) (cur_tsc : Z) (p : ptr) : Prop :=
  queued_ok w p /\
  forall s, sessions w !! p = Some s ->
            0 < elapsed_cycles cur_tsc (Session.mgmt_req_tsc s).

(** * Properties *)

(** *** Facts about [strcmp] and [operator==] *)

Lemma byte_eqb_true_iff (x y : byte) : Byte.eqb x y = true <-> x = y.
Proof.
  split; [apply Byte.byte_dec_bl | apply Byte.byte_dec_lb].
Qed.

Lemma uchar_inj (x y : byte) : uchar x = uchar y -> x = y.
Proof.
  unfold uchar. intros H. apply N2Z.inj in H.
  assert (E : Byte.of_N (Byte.to_N x) = Byte.of_N (Byte.to_N y)) by (now rewrite H).
  rewrite !Byte.of_to_N in E. congruence.
Qed.

Lemma uchar_NUL_iff (x : byte) : uchar x - uchar NUL = 0 <-> x = NUL.
Proof.
  split.
  - intros H. apply uchar_inj. lia.
  - intros ->. lia.
Qed.

Lemma strcmp_zero_iff (a b : list byte) : strcmp a b = 0 <-> c_str a = c_str b.
Proof.
  revert b. induction a as [|x a IH]; intros [|y b]; simpl.
  - tauto.
  - destruct (Byte.eqb y NUL) eqn:Ey.
    + apply byte_eqb_true_iff in Ey. subst y. split; reflexivity.
    + split; [|discriminate]. intros H.
      assert (y = NUL) by (apply uchar_inj; lia).
      subst y. discriminate.
  - destruct (Byte.eqb x NUL) eqn:Ex.
    + apply byte_eqb_true_iff in Ex. subst x. split; reflexivity.
    + split; [|discriminate]. intros H.
      apply uchar_NUL_iff in H. subst x. discriminate.
  - destruct (Byte.eqb x y) eqn:Exy.
    + apply byte_eqb_true_iff in Exy. subst y.
      destruct (Byte.eqb x NUL); [tauto|].
      rewrite IH. split; [congruence | now inversion 1].
    + assert (Hne : x <> y).
      { intros ->. assert (Byte.eqb y y = true) by (now apply byte_eqb_true_iff).
        congruence. }
      split.
      * intros H. exfalso. apply Hne, uchar_inj. lia.
      * destruct (Byte.eqb x NUL) eqn:Ex, (Byte.eqb y NUL) eqn:Ey;
          try discriminate.
        -- apply byte_eqb_true_iff in Ex, Ey. congruence.
        -- inversion 1. contradiction.
Qed.

(** C6.  Two [SessionMetadata] values whose hostname buffers each hold a
    terminator compare equal exactly when their hostnames are equal as
    zero-terminated strings, their thread ids are equal and their session
    numbers are equal; replacing the transport kind, the physical port, the
    start sequence and the routing info of either side leaves the result of
    the comparison unchanged. *)
Theorem SessionMetadata_eq_location_triple (a b : SessionMetadata) :
  NUL ∈ hostname a ->
  NUL ∈ hostname b ->
  (SessionMetadata_eq a b = true <->
     c_str (hostname a) = c_str (hostname b)
     /\ app_tid a = app_tid b
     /\ session_num a = session_num b)
  /\ (forall ta pa sa ra tb pb sb rb,
        SessionMetadata_eq
          (mkSessionMetadata ta (hostname a) (app_tid a) pa (session_num a) sa ra)
          (mkSessionMetadata tb (hostname b) (app_tid b) pb (session_num b) sb rb)
        = SessionMetadata_eq a b).
Proof.
  intros _ _. split.
  - unfold SessionMetadata_eq.
    rewrite !andb_true_iff, !Z.eqb_eq, strcmp_zero_iff. tauto.
  - intros. reflexivity.
Qed.

Lemma SessionMetadata_eq_location_triple_witness :
  SessionMetadata_eq ex_client_md
    (mkSessionMetadata TransportType.kInvalidTransport
       [x63; x00; x01; x02] 0 9 0 0 []) = true
  /\ SessionMetadata_eq ex_client_md ex_server_md = false.
Proof.
  split.
  - apply (proj1 (SessionMetadata_eq_location_triple ex_client_md
                    (mkSessionMetadata TransportType.kInvalidTransport
                       [x63; x00; x01; x02] 0 9 0 0 [])
                    ltac:(right; left) ltac:(right; left))).
    repeat split; reflexivity.
  - destruct (SessionMetadata_eq ex_client_md ex_server_md) eqn:E; [|reflexivity].
    apply (proj1 (SessionMetadata_eq_location_triple ex_client_md ex_server_md
                    ltac:(right; left) ltac:(right; left))) in E.
    destruct E as (E & _). discriminate E.
Defined.

(** ** The monad *)

Section MonadFacts.
Context {St A B : Type}.

Lemma bind_Ok (m : M St A) (k : A -> M St B) (st : St) (r : B * St) :
  bind m k st = Ok r <-> exists a st', m st = Ok (a, st') /\ k a st' = Ok r.
Proof.
  unfold bind. split.
  - destruct (m st) as [[a st']| | |]; try discriminate. eauto.
  - intros (a & st' & -> & H). exact H.
Qed.

Lemma bind_run (m : M St A) (k : A -> M St B) (st st' : St) (a : A) :
  m st = Ok (a, st') -> bind m k st = k a st'.
Proof. unfold bind. intros ->. reflexivity. Qed.

Lemma bind_AssertFail (m : M St A) (k : A -> M St B) (st : St) :
  m st = AssertFail -> bind m k st = AssertFail.
Proof. unfold bind. intros ->. reflexivity. Qed.

Lemma assert_Ok (b : bool) (st : St) (r : unit * St) :
  assert b st = Ok r <-> b = true /\ r = (tt, st).
Proof.
  unfold assert. destruct b; split.
  - intros [= <-]. auto.
  - intros [_ ->]. reflexivity.
  - discriminate.
  - intros [[=] _].
Qed.
End MonadFacts.

Lemma deref_Ok (p : ptr) (w : Rpc) (r : Session.t * Rpc) :
  deref p w = Ok r <-> exists s, sessions w !! p = Some s /\ r = (s, w).
Proof.
  unfold deref. destruct (sessions w !! p) as [s|]; split.
  - intros [= <-]. eauto.
  - intros (s' & [= <-] & ->). reflexivity.
  - discriminate.
  - intros (s' & [=] & _).
Qed.

Lemma store_Ok (p : ptr) (s : Session.t) (w : Rpc) (r : unit * Rpc) :
  store p s w = Ok r <->
  is_Some (sessions w !! p) /\ r = (tt, with_sessions w (<[p := s]> (sessions w))).
Proof.
  unfold store. destruct (sessions w !! p) as [s0|]; split.
  - intros [= <-]. eauto.
  - intros [_ ->]. reflexivity.
  - discriminate.
  - intros [[? [=]] _].
Qed.

Lemma SessionState_eqb_eq (a b : SessionState.t) :
  SessionState.eqb a b = true <-> a = b.
Proof. destruct a, b; simpl; split; congruence. Qed.

Lemma in_progress_cases (st : SessionState.t) :
  in_progress st = true <->
  st = SessionState.kConnectInProgress \/ st = SessionState.kDisconnectInProgress.
Proof. destruct st; simpl; split; intros; try tauto; try discriminate; intuition discriminate. Qed.

Lemma is_client_role (s : Session.t) :
  Session.is_client s = true <-> Session.role s = Role.kClient.
Proof. unfold Session.is_client. destruct (Session.role s); simpl; split; congruence. Qed.

Lemma set_mgmt_req_tsc_id (s : Session.t) :
  Session.set_mgmt_req_tsc s (Session.mgmt_req_tsc s) = s.
Proof. destruct s; reflexivity. Qed.

(** ** One turn of the loop of [mgmt_retry] *)

Lemma send_connect_req_one_Ok (p : ptr) (w : Rpc) (r : unit * Rpc) :
  send_connect_req_one p w = Ok r <->
  exists s, p <> nullptr /\ sessions w !! p = Some s
    /\ Session.role s = Role.kClient
    /\ Session.state s = SessionState.kConnectInProgress
    /\ r = (tt, with_udp_out w
                  (udp_out w ++ [request_datagram (nexus w)
                                   SessionMgmtPktType.kConnectReq s])).
Proof.
  unfold send_connect_req_one, bind, assert, deref, gets, on_udp, send_to, modify.
  split.
  - destruct (N.eqb_spec p nullptr) as [->|Hp]; simpl; [discriminate|].
    destruct (sessions w !! p) as [s|] eqn:Hs; [|discriminate].
    destruct (Session.is_client s) eqn:Hc; simpl; [|discriminate].
    destruct (SessionState.eqb _ _) eqn:Hst; simpl; [|discriminate].
    intros [= <-]. exists s.
    apply is_client_role in Hc. apply SessionState_eqb_eq in Hst. auto.
  - intros (s & Hp & Hs & Hc & Hst & ->).
    apply N.eqb_neq in Hp. apply is_client_role in Hc.
    rewrite Hp; simpl. rewrite Hs; simpl. rewrite Hc; simpl.
    rewrite Hst; simpl. reflexivity.
Qed.

Lemma send_disconnect_req_one_Ok (p : ptr) (w : Rpc) (r : unit * Rpc) :
  send_disconnect_req_one p w = Ok r <->
  exists s, p <> nullptr /\ sessions w !! p = Some s
    /\ Session.role s = Role.kClient
    /\ Session.state s = SessionState.kDisconnectInProgress
    /\ r = (tt, with_udp_out w
                  (udp_out w ++ [request_datagram (nexus w)
                                   SessionMgmtPktType.kDisconnectReq s])).
Proof.
  unfold send_disconnect_req_one, bind, assert, deref, gets, on_udp, send_to, modify.
  split.
  - destruct (N.eqb_spec p nullptr) as [->|Hp]; simpl; [discriminate|].
    destruct (sessions w !! p) as [s|] eqn:Hs; [|discriminate].
    destruct (Session.is_client s) eqn:Hc; simpl; [|discriminate].
    destruct (SessionState.eqb _ _) eqn:Hst; simpl; [|discriminate].
    intros [= <-]. exists s.
    apply is_client_role in Hc. apply SessionState_eqb_eq in Hst. auto.
  - intros (s & Hp & Hs & Hc & Hst & ->).
    apply N.eqb_neq in Hp. apply is_client_role in Hc.
    rewrite Hp; simpl. rewrite Hs; simpl. rewrite Hc; simpl.
    rewrite Hst; simpl. reflexivity.
Qed.

(** The world after the loop body retransmitted for the session [s] behind
    [p]: one more datagram, one more [rdtsc], a fresh timestamp. *)
Lemma mgmt_retry_body_Ok (cur_tsc : Z) (p : ptr) (w w' : Rpc) :
  mgmt_retry_body cur_tsc p w = Ok (tt, w') ->
  exists s, p <> nullptr /\ sessions w !! p = Some s
    /\ in_progress (Session.state s) = true
    /\ 0 < elapsed_cycles cur_tsc (Session.mgmt_req_tsc s)
    /\ (Session.role s = Role.kClient \/ retry_due (nexus w) cur_tsc s = false)
    /\ w' =
       if retry_due (nexus w) cur_tsc s
       then mkRpc (nexus w) (session_vec w) (mgmt_retry_queue w)
              (<[p := Session.set_mgmt_req_tsc s (next_tsc w)]> (sessions w))
              (handler_calls w)
              (udp_out w ++ match req_type_of_state (Session.state s) with
                            | Some ty => [request_datagram (nexus w) ty s]
                            | None => []
                            end)
              (tsc w) (S (tsc_reads w))
       else w.
Proof.
  unfold mgmt_retry_body. intros H.
  apply bind_Ok in H as (? & w1 & H1 & H). apply assert_Ok in H1 as [Hp [= -> ->]].
  apply bind_Ok in H as (s1 & w1 & H1 & H). apply deref_Ok in H1 as (s & Hs & [= -> ->]).
  apply bind_Ok in H as (? & w1 & H1 & H). apply assert_Ok in H1 as [Hst [= -> ->]].
  apply bind_Ok in H as (? & w1 & H1 & H). apply assert_Ok in H1 as [Hel [= -> ->]].
  apply bind_Ok in H as (nx & w1 & H1 & H).
  unfold gets in H1. injection H1 as Hnx Hw1. subst nx w1.
  exists s. fold (in_progress (Session.state s)) in Hst.
  apply negb_true_iff, N.eqb_neq in Hp. apply Z.ltb_lt in Hel.
  repeat (split; [assumption|]).
  fold (retry_due (nexus w) cur_tsc s) in H |- *.
  destruct (retry_due (nexus w) cur_tsc s).
  2:{ injection H as <-. auto. }
  apply bind_Ok in H as (? & w1 & H1 & H).
  apply bind_Ok in H as (now & w2 & H2 & H).
  unfold rdtsc in H2. injection H2 as Hnow Hw2. subst now w2.
  apply bind_Ok in H as (s' & w3 & H3 & H). apply deref_Ok in H3 as (s3 & Hs3 & [= -> ->]).
  apply store_Ok in H as [_ [= ->]].
  apply in_progress_cases in Hst as [Hst|Hst]; rewrite Hst in H1 |- *.
  - apply send_connect_req_one_Ok in H1 as (s1 & _ & Hs1 & Hc & _ & [= -> ->]).
    simpl in Hs3. assert (s1 = s) by congruence. assert (s3 = s) by congruence. subst.
    split; [auto|]. reflexivity.
  - apply send_disconnect_req_one_Ok in H1 as (s1 & _ & Hs1 & Hc & _ & [= -> ->]).
    simpl in Hs3. assert (s1 = s) by congruence. assert (s3 = s) by congruence. subst.
    split; [auto|]. reflexivity.
Qed.

Lemma mgmt_retry_body_run (cur_tsc : Z) (p : ptr) (s : Session.t) (w : Rpc) :
  p <> nullptr ->
  sessions w !! p = Some s ->
  Session.role s = Role.kClient ->
  in_progress (Session.state s) = true ->
  0 < elapsed_cycles cur_tsc (Session.mgmt_req_tsc s) ->
  mgmt_retry_body cur_tsc p w =
  Ok (tt,
      if retry_due (nexus w) cur_tsc s
      then mkRpc (nexus w) (session_vec w) (mgmt_retry_queue w)
             (<[p := Session.set_mgmt_req_tsc s (next_tsc w)]> (sessions w))
             (handler_calls w)
             (udp_out w ++ match req_type_of_state (Session.state s) with
                           | Some ty => [request_datagram (nexus w) ty s]
                           | None => []
                           end)
             (tsc w) (S (tsc_reads w))
      else w).
Proof.
  intros Hp Hs Hc Hst Hel.
  unfold mgmt_retry_body, bind at 1, assert at 1.
  apply N.eqb_neq in Hp. rewrite Hp. simpl.
  unfold bind at 1, deref at 1. rewrite Hs.
  unfold bind at 1, assert at 1. fold (in_progress (Session.state s)). rewrite Hst.
  unfold bind at 1, assert at 1. apply Z.ltb_lt in Hel. rewrite Hel.
  unfold bind at 1, gets at 1. fold (retry_due (nexus w) cur_tsc s).
  destruct (retry_due (nexus w) cur_tsc s); [|reflexivity].
  apply N.eqb_neq in Hp.
  apply in_progress_cases in Hst as [Hst|Hst]; rewrite Hst; unfold bind at 1.
  - rewrite (proj2 (send_connect_req_one_Ok p w _)
               (ex_intro _ s (conj Hp (conj Hs (conj Hc (conj Hst eq_refl)))))).
    unfold bind, rdtsc, deref, store, with_tsc_reads, with_udp_out, with_sessions.
    cbn. rewrite Hs. cbn. rewrite Hs. reflexivity.
  - rewrite (proj2 (send_disconnect_req_one_Ok p w _)
               (ex_intro _ s (conj Hp (conj Hs (conj Hc (conj Hst eq_refl)))))).
    unfold bind, rdtsc, deref, store, with_tsc_reads, with_udp_out, with_sessions.
    cbn. rewrite Hs. cbn. rewrite Hs. reflexivity.
Qed.

(** ** The frame of a scan *)

Lemma retry_frame_refl (w : Rpc) : retry_frame w w.
Proof.
  constructor; auto.
  intros p s Hs. exists (Session.mgmt_req_tsc s). now rewrite set_mgmt_req_tsc_id.
Qed.

Lemma retry_frame_trans (w1 w2 w3 : Rpc) :
  retry_frame w1 w2 -> retry_frame w2 w3 -> retry_frame w1 w3.
Proof.
  intros [] []. constructor; try congruence.
  - intros p s Hs. destruct (rf_live0 p s Hs) as [t Ht].
    destruct (rf_live1 p _ Ht) as [t' Ht']. exists t'. rewrite Ht'. reflexivity.
  - auto.
Qed.

Lemma mgmt_retry_body_frame (cur_tsc : Z) (p : ptr) (w w' : Rpc) :
  mgmt_retry_body cur_tsc p w = Ok (tt, w') ->
  retry_frame w w' /\ forall p', p' <> p -> sessions w' !! p' = sessions w !! p'.
Proof.
  intros H. apply mgmt_retry_body_Ok in H as (s & Hp & Hs & _ & _ & _ & ->).
  destruct (retry_due (nexus w) cur_tsc s).
  - split; [constructor; simpl; auto|].
    + intros p' s' Hs'. destruct (decide (p' = p)) as [->|Hne].
      * rewrite lookup_insert_eq. assert (s' = s) by congruence. subst. eauto.
      * rewrite lookup_insert_ne by done.
        exists (Session.mgmt_req_tsc s'). now rewrite set_mgmt_req_tsc_id.
    + intros p' Hs'. rewrite lookup_insert_ne; [assumption|].
      intros ->. congruence.
    + intros p' Hne. simpl. rewrite lookup_insert_ne; done.
  - split; [apply retry_frame_refl | reflexivity].
Qed.

Lemma mgmt_retry_loop_frame (cur_tsc : Z) (q : list ptr) (w w' : Rpc) :
  mgmt_retry_loop cur_tsc q w = Ok (tt, w') ->
  retry_frame w w' /\ forall p, p ∉ q -> sessions w' !! p = sessions w !! p.
Proof.
  revert w. induction q as [|p q IH]; intros w H; simpl in H.
  - injection H as <-. split; [apply retry_frame_refl | reflexivity].
  - apply bind_Ok in H as ([] & w1 & H1 & H).
    apply mgmt_retry_body_frame in H1 as [F1 U1].
    apply IH in H as [F2 U2]. split.
    + eapply retry_frame_trans; eassumption.
    + intros p' Hp'. apply not_elem_of_cons in Hp' as [Hne Hq].
      rewrite U2, U1; auto.
Qed.

Lemma rdtsc_frame (w : Rpc) :
  retry_frame w (with_tsc_reads w (S (tsc_reads w))).
Proof.
  constructor; simpl; auto.
  intros p s Hs. exists (Session.mgmt_req_tsc s). now rewrite set_mgmt_req_tsc_id.
Qed.

Lemma mgmt_retry_Ok (w w' : Rpc) :
  mgmt_retry w = Ok (tt, w') <->
  mgmt_retry_queue w <> []
  /\ mgmt_retry_loop (next_tsc w) (mgmt_retry_queue w)
       (with_tsc_reads w (S (tsc_reads w))) = Ok (tt, w').
Proof.
  unfold mgmt_retry, bind, gets, assert, rdtsc, next_tsc.
  destruct (mgmt_retry_queue w) as [|p q]; simpl.
  - split; [discriminate | intros [[] _]; reflexivity].
  - split; [intros H; split; [discriminate | exact H] | intros [_ H]; exact H].
Qed.

Lemma mgmt_retry_frame (w w' : Rpc) :
  mgmt_retry w = Ok (tt, w') ->
  retry_frame w w' /\
  forall p, p ∉ mgmt_retry_queue w -> sessions w' !! p = sessions w !! p.
Proof.
  intros H. apply mgmt_retry_Ok in H as [_ H].
  apply mgmt_retry_loop_frame in H as [F U]. split.
  - eapply retry_frame_trans; [apply rdtsc_frame | exact F].
  - intros p Hp. rewrite U by assumption. reflexivity.
Qed.

Lemma mgmt_retry_times_frame (n : nat) (w w' : Rpc) :
  mgmt_retry_times n w = Ok (tt, w') -> retry_frame w w'.
Proof.
  revert w. induction n as [|n IH]; intros w H; simpl in H.
  - injection H as <-. apply retry_frame_refl.
  - apply bind_Ok in H as ([] & w1 & H1 & H).
    apply mgmt_retry_frame in H1 as [F1 _].
    eapply retry_frame_trans; [exact F1 | apply IH, H].
Qed.

(** ** The scan under the retry-queue invariant *)

Lemma retransmission_ext (w w1 : Rpc) (cur_tsc : Z) (p : ptr) :
  nexus w1 = nexus w ->
  sessions w1 !! p = sessions w !! p ->
  retransmission w1 cur_tsc p = retransmission w cur_tsc p.
Proof. unfold retransmission. intros -> ->. reflexivity. Qed.

Lemma omap_cons {A B : Type} (f : A -> option B) (x : A) (l : list A) :
  omap f (x :: l) = match f x with Some y => y :: omap f l | None => omap f l end.
Proof. reflexivity. Qed.

Lemma omap_ext_in {A B : Type} (f g : A -> option B) (l : list A) :
  (forall x, x ∈ l -> f x = g x) -> omap f l = omap g l.
Proof.
  induction l as [|x l IH]; intros H; [reflexivity|].
  rewrite !omap_cons, (H x) by left. rewrite IH; [reflexivity|].
  intros y Hy. apply H. now right.
Qed.

Lemma retransmission_queued (w : Rpc) (cur_tsc : Z) (p : ptr) (s : Session.t) :
  sessions w !! p = Some s ->
  in_progress (Session.state s) = true ->
  retransmission w cur_tsc p =
  if retry_due (nexus w) cur_tsc s
  then match req_type_of_state (Session.state s) with
       | Some ty => Some (request_datagram (nexus w) ty s)
       | None => None
       end
  else None.
Proof.
  intros Hs Hst. unfold retransmission. rewrite Hs.
  destruct (retry_due _ _ _); [|reflexivity].
  destruct (req_type_of_state _); reflexivity.
Qed.

Lemma scan_ready_ext (w w1 : Rpc) (cur_tsc : Z) (p : ptr) :
  sessions w1 !! p = sessions w !! p ->
  scan_ready w cur_tsc p -> scan_ready w1 cur_tsc p.
Proof.
  intros E [[Hn (s & Hs & Hc & Hst)] Hel]. split.
  - split; [assumption|]. exists s. rewrite E. auto.
  - intros s'. rewrite E. apply Hel.
Qed.

Lemma mgmt_retry_loop_run (cur_tsc : Z) (q : list ptr) :
  forall w : Rpc,
  NoDup q ->
  (forall p, p ∈ q -> scan_ready w cur_tsc p) ->
  exists w',
    mgmt_retry_loop cur_tsc q w = Ok (tt, w')
    /\ udp_out w' = udp_out w ++ omap (retransmission w cur_tsc) q
    /\ tsc_reads w' = (tsc_reads w + length (omap (retransmission w cur_tsc) q))%nat
    /\ forall (i : nat) p s,
         q !! i = Some p ->
         sessions w !! p = Some s ->
         sessions w' !! p =
         Some (if retry_due (nexus w) cur_tsc s
               then Session.set_mgmt_req_tsc s
                      (rdtsc_value
                         (tsc w (tsc_reads w
                                 + length (omap (retransmission w cur_tsc) (take i q)))%nat))
               else s).
Proof.
  induction q as [|p q IH]; intros w Hnd Hq.
  - exists w. simpl. repeat split.
    + now rewrite app_nil_r.
    + lia.
    + intros i p s Hi. discriminate.
  - apply NoDup_cons in Hnd as [Hpq Hnd].
    destruct (Hq p) as [[Hn (s & Hs & Hc & Hst)] Hel]; [left|].
    pose proof (mgmt_retry_body_run cur_tsc p s w Hn Hs Hc Hst (Hel s Hs)) as Hb.
    set (w1 := if retry_due (nexus w) cur_tsc s then _ else w) in Hb.
    assert (Hnx : nexus w1 = nexus w) by (subst w1; destruct (retry_due _ _ _); reflexivity).
    assert (Htsc : tsc w1 = tsc w) by (subst w1; destruct (retry_due _ _ _); reflexivity).
    assert (Hoth : forall p', p' <> p -> sessions w1 !! p' = sessions w !! p').
    { intros p' Hne. subst w1. destruct (retry_due _ _ _); [|reflexivity].
      simpl. rewrite lookup_insert_ne; done. }
    assert (Hin : forall p', p' ∈ q -> p' <> p) by (intros p' Hp' ->; contradiction).
    destruct (IH w1 Hnd) as (w' & Hrun & Hudp & Hreads & Hsess).
    { intros p' Hp'. apply (scan_ready_ext w); [apply Hoth, Hin, Hp'|].
      apply Hq. now right. }
    assert (Hom : forall l, l ⊆ q ->
              omap (retransmission w1 cur_tsc) l = omap (retransmission w cur_tsc) l).
    { intros l Hl. apply omap_ext_in. intros x Hx.
      apply retransmission_ext; [exact Hnx | apply Hoth, Hin, Hl, Hx]. }
    assert (Htake : forall i, take i q ⊆ q).
    { intros i x Hx. rewrite <- (take_drop i q). apply elem_of_app. now left. }
    rewrite Hom in Hudp, Hreads by reflexivity.
    exists w'. split; [|split; [|split]].
    + simpl. unfold bind. rewrite Hb. exact Hrun.
    + rewrite Hudp, omap_cons, (retransmission_queued w cur_tsc p s Hs Hst).
      subst w1. destruct (retry_due _ _ _); [|reflexivity].
      simpl. destruct (req_type_of_state _); simpl; [|now rewrite app_nil_r].
      now rewrite <- app_assoc.
    + rewrite Hreads, omap_cons, (retransmission_queued w cur_tsc p s Hs Hst).
      apply in_progress_cases in Hst as [Hst|Hst]; rewrite Hst;
        subst w1; destruct (retry_due _ _ _); simpl; lia.
    + intros [|i] p' s' Hi Hs'.
      * injection Hi as <-. assert (s' = s) by congruence. subst s'.
        apply mgmt_retry_loop_frame in Hrun as [_ U]. rewrite (U p Hpq).
        subst w1. simpl. rewrite Nat.add_0_r. unfold next_tsc.
        destruct (retry_due _ _ _); [|assumption].
        simpl. apply lookup_insert_eq.
      * simpl in Hi.
        assert (Hp' : p' ∈ q) by (eapply list_elem_of_lookup_2; eassumption).
        rewrite (Hsess i p' s' Hi) by (rewrite Hoth; auto).
        rewrite Hnx, Htsc, Hom by apply Htake. f_equal.
        destruct (retry_due (nexus w) cur_tsc s'); [|reflexivity].
        do 3 f_equal. simpl take.
        rewrite omap_cons, (retransmission_queued w cur_tsc p s Hs Hst).
        apply in_progress_cases in Hst as [Hst|Hst]; rewrite Hst;
          subst w1; destruct (retry_due _ _ _); simpl; lia.
Qed.

(** ** Comparisons on [double] *)

Lemma Prim2SF_double_of_Z (z : Z) :
  valid_binary (binary_normalize 53 1024 z 0 false) = true ->
  Prim2SF (double_of_Z z) = binary_normalize 53 1024 z 0 false.
Proof. intros H. unfold double_of_Z. now apply Prim2SF_SF2Prim. Qed.

(** A [double] above the timeout constant is above the retransmission
    constant. *)
Lemma double_gt_timeout_retrans (x : float) :
  double_gt x (double_of_Z kSessionMgmtTimeoutMs) = true ->
  double_gt x (double_of_Z kSessionMgmtRetransMs) = true.
Proof.
  unfold double_gt. rewrite !ltb_spec.
  rewrite !Prim2SF_double_of_Z by (vm_compute; reflexivity).
  unfold kSessionMgmtTimeoutMs, kSessionMgmtRetransMs.
  replace (binary_normalize 53 1024 50 0 false)
    with (S754_finite false 7036874417766400 (-47)) by (vm_compute; reflexivity).
  replace (binary_normalize 53 1024 5 0 false)
    with (S754_finite false 5629499534213120 (-50)) by (vm_compute; reflexivity).
  unfold SFltb, SFcompare.
  destruct (Prim2SF x) as [[|]| [|] | |[|] mx ex]; try (simpl; congruence).
  destruct (Z.compare_spec (-47) ex) as [E|L|G].
  - subst ex. simpl. intros _. reflexivity.
  - intros _. destruct (Z.compare_spec (-50) ex); try lia; reflexivity.
  - discriminate.
Qed.

(** ** The cycle counter stays within 64 bits *)

Lemma u64_range (z : Z) : 0 <= u64 z < 2 ^ 64.
Proof. unfold u64. apply Z.mod_pos_bound. lia. Qed.

Lemma lor_range (a b n : Z) :
  0 <= n -> 0 <= a < 2 ^ n -> 0 <= b < 2 ^ n -> 0 <= Z.lor a b < 2 ^ n.
Proof.
  intros Hn Ha Hb. split; [apply Z.lor_nonneg; lia|].
  destruct (Z.eq_dec (Z.lor a b) 0) as [E|E]; [rewrite E; lia|].
  apply Z.log2_lt_pow2; [pose proof (proj2 (Z.lor_nonneg a b)); lia|].
  rewrite Z.log2_lor by lia.
  destruct (Z.eq_dec a 0) as [->|Ha0], (Z.eq_dec b 0) as [->|Hb0].
  - exfalso. apply E. reflexivity.
  - rewrite Z.max_r by (simpl; apply Z.log2_nonneg). apply Z.log2_lt_pow2; lia.
  - rewrite Z.max_l by (simpl; apply Z.log2_nonneg). apply Z.log2_lt_pow2; lia.
  - apply Z.max_lub_lt; apply Z.log2_lt_pow2; lia.
Qed.

Lemma rdtsc_value_range (regs : Z * Z) : 0 <= rdtsc_value regs < 2 ^ 64.
Proof.
  unfold rdtsc_value, u64_shl. apply lor_range; [lia| |]; apply u64_range.
Qed.

Lemma elapsed_cycles_pos (cur_tsc t : Z) :
  0 <= t < cur_tsc -> cur_tsc < 2 ^ 64 -> 0 < elapsed_cycles cur_tsc t.
Proof.
  intros Ht Hc. unfold elapsed_cycles, u64_sub, u64.
  rewrite Z.mod_small; lia.
Qed.

(** ** Adding to and removing from the retry queue *)

Lemma mgmt_retry_queue_add_Ok (p : ptr) (w w' : Rpc) :
  mgmt_retry_queue_add p w = Ok (tt, w') ->
  exists s, p <> nullptr /\ sessions w !! p = Some s
    /\ Session.role s = Role.kClient
    /\ (p ∉ mgmt_retry_queue w)
    /\ w' = mkRpc (nexus w) (session_vec w) (mgmt_retry_queue w ++ [p])
              (<[p := Session.set_mgmt_req_tsc s (next_tsc w)]> (sessions w))
              (handler_calls w) (udp_out w) (tsc w) (S (tsc_reads w)).
Proof.
  unfold mgmt_retry_queue_add, mgmt_retry_queue_contains. intros H.
  apply bind_Ok in H as (? & w1 & H1 & H). apply assert_Ok in H1 as [Hp [= -> ->]].
  apply bind_Ok in H as (s1 & w1 & H1 & H). apply deref_Ok in H1 as (s & Hs & [= -> ->]).
  apply bind_Ok in H as (? & w1 & H1 & H). apply assert_Ok in H1 as [Hc [= -> ->]].
  apply bind_Ok in H as (? & w1 & H1 & H). apply assert_Ok in H1 as [_ [= -> ->]].
  apply bind_Ok in H as (c & w1 & H1 & H).
  apply bind_Ok in H1 as (q & w2 & H2 & H1).
  unfold gets in H2. injection H2 as Hq Hw2. subst q w2.
  unfold ret in H1. injection H1 as Hc' Hw1. subst c w1.
  apply bind_Ok in H as (? & w1 & H1 & H). apply assert_Ok in H1 as [Hnc [= -> ->]].
  apply bind_Ok in H as (now & w1 & H1 & H).
  unfold rdtsc in H1. injection H1 as Hnow Hw1. subst now w1.
  apply bind_Ok in H as (? & w1 & H1 & H). apply store_Ok in H1 as [_ [= -> ->]].
  unfold modify in H. injection H as <-.
  exists s. apply negb_true_iff, N.eqb_neq in Hp. apply is_client_role in Hc.
  apply negb_true_iff, bool_decide_eq_false in Hnc.
  repeat (split; [assumption|]). reflexivity.
Qed.

Lemma mgmt_retry_queue_remove_Ok (p : ptr) (w w' : Rpc) :
  mgmt_retry_queue_remove p w = Ok (tt, w') ->
  exists s, p <> nullptr /\ sessions w !! p = Some s
    /\ Session.role s = Role.kClient
    /\ p ∈ mgmt_retry_queue w
    /\ w' = with_mgmt_retry_queue w
              (filter (fun x => x <> p) (mgmt_retry_queue w)).
Proof.
  unfold mgmt_retry_queue_remove, mgmt_retry_queue_contains. intros H.
  apply bind_Ok in H as (? & w1 & H1 & H). apply assert_Ok in H1 as [Hp [= -> ->]].
  apply bind_Ok in H as (s1 & w1 & H1 & H). apply deref_Ok in H1 as (s & Hs & [= -> ->]).
  apply bind_Ok in H as (? & w1 & H1 & H). apply assert_Ok in H1 as [Hc [= -> ->]].
  apply bind_Ok in H as (c & w1 & H1 & H).
  apply bind_Ok in H1 as (q & w2 & H2 & H1).
  unfold gets in H2. injection H2 as Hq Hw2. subst q w2.
  unfold ret in H1. injection H1 as Hc' Hw1. subst c w1.
  apply bind_Ok in H as (? & w1 & H1 & H). apply assert_Ok in H1 as [Hin [= -> ->]].
  apply bind_Ok in H as (q & w1 & H1 & H).
  unfold gets in H1. injection H1 as Hq Hw1. subst q w1.
  apply bind_Ok in H as (? & w1 & H1 & H).
  unfold modify in H1. injection H1 as _ Hw1. subst w1.
  apply bind_Ok in H as (q' & w1 & H1 & H).
  unfold gets in H1. injection H1 as Hq' Hw1. subst q' w1.
  apply assert_Ok in H as [_ [= ->]].
  exists s. apply negb_true_iff, N.eqb_neq in Hp. apply is_client_role in Hc.
  apply bool_decide_eq_true in Hin.
  repeat (split; [assumption|]). reflexivity.
Qed.


(** ** The retry-queue invariant under the queue operations *)

Lemma queued_ok_set_tsc (w w' : Rpc) (p : ptr) :
  (forall s, sessions w !! p = Some s ->
             exists t, sessions w' !! p = Some (Session.set_mgmt_req_tsc s t)) ->
  queued_ok w p -> queued_ok w' p.
Proof.
  intros H [Hn (s & Hs & Hc & Hst)]. split; [assumption|].
  destruct (H s Hs) as [t Ht]. exists (Session.set_mgmt_req_tsc s t). auto.
Qed.

Lemma retry_frame_inv (w w' : Rpc) :
  retry_frame w w' -> retry_queue_inv w -> retry_queue_inv w'.
Proof.
  intros F [Hnd Hq]. destruct F. split; rewrite rf_queue0; [assumption|].
  intros p Hp. apply (queued_ok_set_tsc w); auto.
Qed.

Lemma mgmt_retry_queue_add_inv (p : ptr) (w w' : Rpc) :
  mgmt_retry_queue_add p w = Ok (tt, w') ->
  (forall s, sessions w !! p = Some s -> in_progress (Session.state s) = true) ->
  retry_queue_inv w -> retry_queue_inv w'.
Proof.
  intros H Hst [Hnd Hq].
  apply mgmt_retry_queue_add_Ok in H as (s & Hp & Hs & Hc & Hnin & ->).
  split; simpl.
  - apply NoDup_app. split_and!; [assumption| |apply NoDup_singleton].
    intros x Hx Hx'. apply list_elem_of_singleton in Hx'. subst x. contradiction.
  - intros x Hx. apply elem_of_app in Hx as [Hx|Hx].
    + destruct (Hq x Hx) as [Hn (sx & Hsx & Hcx & Hstx)].
      split; [assumption|]. exists sx. simpl.
      rewrite lookup_insert_ne; [auto|]. intros ->. contradiction.
    + apply list_elem_of_singleton in Hx. subst x. split; [assumption|].
      exists (Session.set_mgmt_req_tsc s (next_tsc w)). simpl.
      rewrite lookup_insert_eq. repeat split; auto.
Qed.

Lemma mgmt_retry_queue_remove_inv (p : ptr) (w w' : Rpc) :
  mgmt_retry_queue_remove p w = Ok (tt, w') ->
  retry_queue_inv w -> retry_queue_inv w' /\ p ∉ mgmt_retry_queue w'.
Proof.
  intros H [Hnd Hq].
  apply mgmt_retry_queue_remove_Ok in H as (s & Hp & Hs & Hc & Hin & ->).
  split; [split|]; simpl.
  - apply NoDup_filter, Hnd.
  - intros x Hx. apply list_elem_of_filter in Hx as [_ Hx].
    destruct (Hq x Hx) as [Hn Hx']. split; auto.
  - intros Hx. apply list_elem_of_filter in Hx as [Hne _]. now apply Hne.
Qed.

(** ** A whole scan *)

Lemma mgmt_retry_run (w : Rpc) :
  mgmt_retry_queue w <> [] ->
  retry_queue_inv w ->
  timestamps_behind w ->
  exists w',
    mgmt_retry w = Ok (tt, w')
    /\ udp_out w' =
       udp_out w ++ omap (retransmission w (next_tsc w)) (mgmt_retry_queue w)
    /\ tsc_reads w' =
       (S (tsc_reads w)
        + length (omap (retransmission w (next_tsc w)) (mgmt_retry_queue w)))%nat
    /\ forall (i : nat) p s,
         mgmt_retry_queue w !! i = Some p ->
         sessions w !! p = Some s ->
         sessions w' !! p =
         Some (if retry_due (nexus w) (next_tsc w) s
               then Session.set_mgmt_req_tsc s
                      (rdtsc_value
                         (tsc w (S (tsc_reads w)
                                 + length (omap (retransmission w (next_tsc w))
                                             (take i (mgmt_retry_queue w))))%nat))
               else s).
Proof.
  intros Hne [Hnd Hq] Hts.
  set (w0 := with_tsc_reads w (S (tsc_reads w))).
  destruct (mgmt_retry_loop_run (next_tsc w) (mgmt_retry_queue w) w0 Hnd)
    as (w' & Hrun & Hudp & Hreads & Hsess).
  { intros p Hp. split; [exact (Hq p Hp)|].
    intros s Hs. apply elapsed_cycles_pos; [apply (Hts p s Hp Hs)|].
    apply rdtsc_value_range. }
  assert (Hom : forall l : list ptr,
            omap (retransmission w0 (next_tsc w)) l
            = omap (retransmission w (next_tsc w)) l).
  { intros l. apply omap_ext_in. intros x _. reflexivity. }
  exists w'. rewrite Hom in Hudp, Hreads.
  split; [apply mgmt_retry_Ok; auto|]. split; [exact Hudp|]. split; [exact Hreads|].
  intros i p s Hi Hs. rewrite (Hsess i p s Hi Hs), Hom. reflexivity.
Qed.

Lemma tsc_advances_lt (w : Rpc) (n a b : nat) :
  tsc_advances w n -> (tsc_reads w <= a)%nat -> (a < b)%nat ->
  (b <= tsc_reads w + n)%nat ->
  rdtsc_value (tsc w a) < rdtsc_value (tsc w b).
Proof.
  intros Hadv Ha Hab. induction Hab as [|b Hab IH]; intros Hb.
  - apply Hadv. lia.
  - etransitivity; [apply IH; lia|]. apply Hadv. lia.
Qed.

Lemma length_omap_le {A B : Type} (f : A -> option B) (l : list A) :
  (length (omap f l) <= length l)%nat.
Proof.
  induction l as [|x l IH]; [reflexivity|].
  rewrite omap_cons. destruct (f x); simpl; lia.
Qed.

(** After a scan the preconditions of the next scan hold again. *)
Lemma mgmt_retry_run_again (w : Rpc) (n : nat) :
  mgmt_retry_queue w <> [] ->
  retry_queue_inv w ->
  timestamps_behind w ->
  tsc_advances w (S (length (mgmt_retry_queue w)) + n) ->
  exists w',
    mgmt_retry w = Ok (tt, w')
    /\ retry_frame w w'
    /\ timestamps_behind w' /\ tsc_advances w' n.
Proof.
  intros Hne Hinv Hts Hadv.
  destruct (mgmt_retry_run w Hne Hinv Hts) as (w' & Hrun & Hudp & Hreads & Hsess).
  destruct (mgmt_retry_frame w w' Hrun) as [F _].
  pose proof (length_omap_le (retransmission w (next_tsc w)) (mgmt_retry_queue w))
    as Hle.
  exists w'. split; [exact Hrun|]. split; [exact F|].
  destruct F. split.
  - intros p s' Hp Hs'. rewrite rf_queue0 in Hp.
    apply list_elem_of_lookup in Hp as [i Hi].
    destruct Hinv as [_ Hq].
    destruct (Hq p) as [_ (s & Hs & _ & _)];
      [eapply list_elem_of_lookup_2; eassumption|].
    rewrite (Hsess i p s Hi Hs) in Hs'. injection Hs' as <-.
    change (next_tsc w') with (rdtsc_value (tsc w' (tsc_reads w'))).
    rewrite rf_tsc0, Hreads.
    assert (Hp : p ∈ mgmt_retry_queue w) by (eapply list_elem_of_lookup_2; eassumption).
    destruct (retry_due (nexus w) (next_tsc w) s) eqn:Hdue.
    + assert (Hlt : (length (omap (retransmission w (next_tsc w))
                               (take i (mgmt_retry_queue w)))
                     < length (omap (retransmission w (next_tsc w))
                                 (mgmt_retry_queue w)))%nat).
      { rewrite <- (take_drop_middle _ i p Hi) at 2.
        rewrite omap_app, omap_cons, length_app.
        destruct (Hq p Hp) as [_ (s1 & Hs1 & _ & Hst)].
        assert (s1 = s) by congruence. subst s1.
        rewrite (retransmission_queued w _ p s Hs Hst), Hdue.
        apply in_progress_cases in Hst as [Hst|Hst]; rewrite Hst; simpl; lia. }
      simpl. split; [apply rdtsc_value_range|].
      eapply tsc_advances_lt; [eassumption|lia|lia|lia].
    + split; [apply (Hts p s Hp Hs)|].
      etransitivity; [apply (Hts p s Hp Hs)|].
      unfold next_tsc at 1. eapply tsc_advances_lt; [eassumption|lia|lia|lia].
  - intros k Hk. rewrite rf_tsc0. apply Hadv. lia.
Qed.

Lemma tsc_advances_fewer (w : Rpc) (n m : nat) :
  (m <= n)%nat -> tsc_advances w n -> tsc_advances w m.
Proof. intros Hmn H k Hk. apply H. lia. Qed.

Lemma mgmt_retry_times_run (n : nat) :
  forall w : Rpc,
  mgmt_retry_queue w <> [] ->
  retry_queue_inv w ->
  timestamps_behind w ->
  tsc_advances w (n * S (length (mgmt_retry_queue w))) ->
  exists w', mgmt_retry_times n w = Ok (tt, w') /\ retry_frame w w'.
Proof.
  induction n as [|n IH]; intros w Hne Hinv Hts Hadv.
  - exists w. split; [reflexivity | apply retry_frame_refl].
  - destruct (mgmt_retry_run_again w (n * S (length (mgmt_retry_queue w)))
                Hne Hinv Hts)
      as (w1 & Hrun & F & Hts1 & Hadv1).
    { eapply tsc_advances_fewer; [|exact Hadv]. simpl. lia. }
    assert (Hq : mgmt_retry_queue w1 = mgmt_retry_queue w) by (now destruct F).
    destruct (IH w1) as (w' & Hrun' & F'); auto.
    + congruence.
    + eapply retry_frame_inv; eassumption.
    + now rewrite Hq.
    + exists w'. split; [|eapply retry_frame_trans; eassumption].
      simpl. unfold bind. rewrite Hrun. exact Hrun'.
Qed.

(** ** The example Rpc *)

Lemma ex_rpc_lookup (st : SessionState.t) (p : ptr) (s : Session.t) :
  sessions (ex_rpc st) !! p = Some s -> p = 1%N /\ s = ex_session st 0.
Proof.
  simpl. intros H. apply lookup_singleton_Some in H as [<- <-]. auto.
Qed.

Lemma ex_rpc_inv (st : SessionState.t) :
  in_progress st = true -> retry_queue_inv (ex_rpc st).
Proof.
  intros Hst. split; simpl.
  - apply NoDup_singleton.
  - intros p Hp. apply list_elem_of_singleton in Hp. subst p.
    split; [discriminate|]. exists (ex_session st 0).
    split; [apply lookup_singleton_eq|]. split; [reflexivity | exact Hst].
Defined.

Lemma ex_rpc_timestamps (st : SessionState.t) : timestamps_behind (ex_rpc st).
Proof.
  intros p s _ Hs. apply ex_rpc_lookup in Hs as [-> ->]. vm_compute.
  split; [discriminate | reflexivity].
Defined.

Lemma ex_rpc_tsc_advances (st : SessionState.t) : tsc_advances (ex_rpc st) 6.
Proof.
  intros k [_ Hk]. simpl in Hk.
  do 6 (destruct k as [|k]; [vm_compute; reflexivity|]). lia.
Defined.

(** ** The claims *)

(** C10.  [mgmt_retry] asserts that the retry queue is not empty and, for
    each queued session, that the cycle count it reads differs from the
    session's [mgmt_req_tsc]: an empty queue, or a first session stamped
    with the very count read, fails an assertion.  When the queue is not
    empty, the count read strictly exceeds the [mgmt_req_tsc] of every
    queued session and the retry-queue invariant holds, a scan runs to its
    end: no assertion fails, neither in [mgmt_retry] nor in the two senders
    it calls, and the [default] branch with its [exit] is not taken. *)
Theorem mgmt_retry_assertions_hold (w : Rpc) :
  (mgmt_retry_queue w = [] -> mgmt_retry w = AssertFail)
  /\ (forall p q s,
        mgmt_retry_queue w = p :: q ->
        p <> nullptr ->
        sessions w !! p = Some s ->
        in_progress (Session.state s) = true ->
        Session.mgmt_req_tsc s = next_tsc w ->
        mgmt_retry w = AssertFail)
  /\ (mgmt_retry_queue w <> [] ->
      retry_queue_inv w ->
      timestamps_behind w ->
      exists w', mgmt_retry w = Ok (tt, w')).
Proof.
  split; [|split].
  - intros E. unfold mgmt_retry, bind, gets, assert. rewrite E. reflexivity.
  - intros p q s E Hp Hs Hst Ht. apply N.eqb_neq in Hp.
    unfold mgmt_retry.
    rewrite (bind_run _ _ w w (p :: q)) by (unfold gets; now rewrite E).
    rewrite (bind_run _ _ w w tt) by reflexivity.
    rewrite (bind_run _ _ w (with_tsc_reads w (S (tsc_reads w))) (next_tsc w))
      by reflexivity.
    simpl. apply bind_AssertFail. unfold mgmt_retry_body.
    rewrite (bind_run _ _ _ (with_tsc_reads w (S (tsc_reads w))) tt)
      by (now rewrite Hp).
    rewrite (bind_run _ _ _ (with_tsc_reads w (S (tsc_reads w))) s)
      by (unfold deref, with_tsc_reads; cbn; now rewrite Hs).
    fold (in_progress (Session.state s)).
    rewrite (bind_run _ _ _ (with_tsc_reads w (S (tsc_reads w))) tt)
      by (now rewrite Hst).
    apply bind_AssertFail.
    unfold assert, elapsed_cycles, u64_sub. rewrite Ht, Z.sub_diag. reflexivity.
  - intros Hne Hinv Hts.
    destruct (mgmt_retry_run w Hne Hinv Hts) as (w' & Hrun & _).
    exists w'. exact Hrun.
Qed.

Lemma mgmt_retry_assertions_hold_witness :
  exists w', mgmt_retry (ex_rpc SessionState.kDisconnectInProgress) = Ok (tt, w').
Proof.
  apply mgmt_retry_assertions_hold.
  - discriminate.
  - apply ex_rpc_inv. reflexivity.
  - apply ex_rpc_timestamps.
Defined.

(** C9.  One scan changes of each session at most its [mgmt_req_tsc]: the
    retry queue, the session table and the handler invocations are as
    before, every live session is still live with the same role, state,
    metadata and congestion-control flag, no session appears, and a session
    that is not queued is untouched; all of it whatever the cycle counter
    shows. *)
Theorem mgmt_retry_touches_only_timestamps (w w' : Rpc) :
  mgmt_retry w = Ok (tt, w') ->
  mgmt_retry_queue w' = mgmt_retry_queue w
  /\ session_vec w' = session_vec w
  /\ handler_calls w' = handler_calls w
  /\ (forall p s, sessions w !! p = Some s ->
        exists s', sessions w' !! p = Some s'
          /\ Session.role s' = Session.role s
          /\ Session.state s' = Session.state s
          /\ Session.client s' = Session.client s
          /\ Session.server s' = Session.server s
          /\ Session.is_cc s' = Session.is_cc s)
  /\ (forall p, sessions w !! p = None -> sessions w' !! p = None)
  /\ (forall p, p ∉ mgmt_retry_queue w -> sessions w' !! p = sessions w !! p).
Proof.
  intros H. apply mgmt_retry_frame in H as [[] U].
  repeat (split; [assumption|]). split; [|split; assumption].
  intros p s Hs. destruct (rf_live0 p s Hs) as [t Ht].
  exists (Session.set_mgmt_req_tsc s t). rewrite Ht. repeat split; reflexivity.
Qed.

Lemma mgmt_retry_touches_only_timestamps_witness :
  exists w',
    mgmt_retry (ex_rpc SessionState.kConnectInProgress) = Ok (tt, w')
    /\ mgmt_retry_queue w' = [1%N]
    /\ session_vec w' = [1%N]
    /\ handler_calls w' = [].
Proof.
  destruct (mgmt_retry (ex_rpc SessionState.kConnectInProgress))
    as [[[] w']| | |] eqn:E; try (vm_compute in E; discriminate E).
  exists w'. split; [reflexivity|].
  destruct (mgmt_retry_touches_only_timestamps _ _ E) as (Hq & Hv & Hc & _).
  repeat split; assumption.
Defined.

(** The scan as it is written has one test, [retry_due]: the datagrams of a
    scan are, in queue order, one request per queued session that passes
    it; the request has the type that matches the session state, carries the
    two metadata records of the session and goes to the server's host; the
    [mgmt_req_tsc] of a session that was retransmitted is the cycle count
    read right after its resend, and that of any other queued session is
    unchanged.  [kSessionMgmtTimeoutMs] takes no part in it. *)
Theorem mgmt_retry_retransmits_when_due (w : Rpc) :
  mgmt_retry_queue w <> [] ->
  retry_queue_inv w ->
  timestamps_behind w ->
  exists w',
    mgmt_retry w = Ok (tt, w')
    /\ udp_out w' =
       udp_out w ++ omap (retransmission w (next_tsc w)) (mgmt_retry_queue w)
    /\ forall (i : nat) p s,
         mgmt_retry_queue w !! i = Some p ->
         sessions w !! p = Some s ->
         (retry_due (nexus w) (next_tsc w) s = true ->
            (exists ty,
               req_type_of_state (Session.state s) = Some ty
               /\ retransmission w (next_tsc w) p
                  = Some (request_datagram (nexus w) ty s))
            /\ sessions w' !! p =
               Some (Session.set_mgmt_req_tsc s
                       (rdtsc_value
                          (tsc w (S (tsc_reads w)
                                  + length (omap (retransmission w (next_tsc w))
                                              (take i (mgmt_retry_queue w))))%nat))))
         /\ (retry_due (nexus w) (next_tsc w) s = false ->
               retransmission w (next_tsc w) p = None
               /\ sessions w' !! p = Some s).
Proof.
  intros Hne Hinv Hts.
  destruct (mgmt_retry_run w Hne Hinv Hts) as (w' & Hrun & Hudp & _ & Hsess).
  exists w'. split; [exact Hrun|]. split; [exact Hudp|].
  intros i p s Hi Hs. specialize (Hsess i p s Hi Hs).
  destruct Hinv as [_ Hq].
  destruct (Hq p) as [_ (s1 & Hs1 & _ & Hst)];
    [eapply list_elem_of_lookup_2; eassumption|].
  assert (s1 = s) by congruence. subst s1.
  pose proof (retransmission_queued w (next_tsc w) p s Hs Hst) as Hr.
  split; intros Hdue; rewrite Hdue in Hsess, Hr.
  - split; [|exact Hsess].
    apply in_progress_cases in Hst as [Hst|Hst]; rewrite Hst in Hr |- *;
      eexists; split; [reflexivity | exact Hr | reflexivity | exact Hr].
  - split; assumption.
Qed.

Lemma mgmt_retry_retransmits_when_due_witness :
  exists w',
    mgmt_retry (ex_rpc SessionState.kDisconnectInProgress) = Ok (tt, w')
    /\ udp_out w' =
       [request_datagram ex_nexus SessionMgmtPktType.kDisconnectReq
          (ex_session SessionState.kDisconnectInProgress 0)]
    /\ sessions w' !! 1%N
       = Some (ex_session SessionState.kDisconnectInProgress 60001000).
Proof.
  destruct (mgmt_retry_retransmits_when_due
              (ex_rpc SessionState.kDisconnectInProgress))
    as (w' & Hrun & Hudp & Hsess).
  - discriminate.
  - apply ex_rpc_inv. reflexivity.
  - apply ex_rpc_timestamps.
  - exists w'. split; [exact Hrun|]. split; [exact Hudp|].
    destruct (Hsess 0%nat 1%N (ex_session SessionState.kDisconnectInProgress 0))
      as [Hdue _]; [reflexivity | apply lookup_singleton_eq |].
    destruct Hdue as [_ Hs]; [vm_compute; reflexivity|]. exact Hs.
Defined.

(** C3.  The scan retransmits outside the range from
    [kSessionMgmtRetransMs] to [kSessionMgmtTimeoutMs]: on a 1 GHz machine a
    connecting session whose last request left at cycle 0 is scanned at
    cycle 60000000, 60 ms later and past the timeout; the scan sends its
    connect request once more and stamps the session with the cycle count
    read after the resend. *)
Lemma mgmt_retry_retransmits_past_timeout :
  mgmt_retry_queue (ex_rpc SessionState.kConnectInProgress) = [1%N]
  /\ sessions (ex_rpc SessionState.kConnectInProgress) !! 1%N
     = Some (ex_session SessionState.kConnectInProgress 0)
  /\ timeout_passed ex_nexus
       (next_tsc (ex_rpc SessionState.kConnectInProgress))
       (ex_session SessionState.kConnectInProgress 0) = true
  /\ exists w',
       mgmt_retry (ex_rpc SessionState.kConnectInProgress) = Ok (tt, w')
       /\ udp_out w' =
          [request_datagram ex_nexus SessionMgmtPktType.kConnectReq
             (ex_session SessionState.kConnectInProgress 0)]
       /\ sessions w' !! 1%N
          = Some (ex_session SessionState.kConnectInProgress 60001000).
Proof.
  split; [reflexivity|]. split; [apply lookup_singleton_eq|].
  split; [vm_compute; reflexivity|].
  eexists. split; [vm_compute; reflexivity|].
  split; vm_compute; reflexivity.
Qed.

(** The scan as it is written never reads [kSessionMgmtTimeoutMs]: a
    queued session whose elapsed time exceeds it is handled as any session
    past [kSessionMgmtRetransMs].  The request that matches its state is
    sent once more and [mgmt_req_tsc] is set to a cycle count read during
    the scan; the state, the retry queue, the session table and the handler
    invocations are as before. *)
Theorem mgmt_retry_past_timeout_retransmits
    (w : Rpc) (i : nat) (p : ptr) (s : Session.t) :
  retry_queue_inv w ->
  timestamps_behind w ->
  mgmt_retry_queue w !! i = Some p ->
  sessions w !! p = Some s ->
  timeout_passed (nexus w) (next_tsc w) s = true ->
  exists w' ty k,
    mgmt_retry w = Ok (tt, w')
    /\ req_type_of_state (Session.state s) = Some ty
    /\ udp_out w' =
       udp_out w
       ++ omap (retransmission w (next_tsc w)) (take i (mgmt_retry_queue w))
       ++ request_datagram (nexus w) ty s
          :: omap (retransmission w (next_tsc w)) (drop (S i) (mgmt_retry_queue w))
    /\ (tsc_reads w < k)%nat
    /\ sessions w' !! p = Some (Session.set_mgmt_req_tsc s (rdtsc_value (tsc w k)))
    /\ mgmt_retry_queue w' = mgmt_retry_queue w
    /\ session_vec w' = session_vec w
    /\ handler_calls w' = handler_calls w.
Proof.
  intros Hinv Hts Hi Hs Hto.
  assert (Hne : mgmt_retry_queue w <> []) by (intros E; rewrite E in Hi; discriminate).
  assert (Hdue : retry_due (nexus w) (next_tsc w) s = true)
    by (apply double_gt_timeout_retrans, Hto).
  destruct (mgmt_retry_run w Hne Hinv Hts) as (w' & Hrun & Hudp & _ & Hsess).
  destruct (mgmt_retry_frame w w' Hrun) as [[] _].
  destruct Hinv as [_ Hq].
  destruct (Hq p) as [_ (s1 & Hs1 & _ & Hst)];
    [eapply list_elem_of_lookup_2; eassumption|].
  assert (s1 = s) by congruence. subst s1.
  pose proof (retransmission_queued w (next_tsc w) p s Hs Hst) as Hr.
  rewrite Hdue in Hr.
  assert (Hty : exists ty, req_type_of_state (Session.state s) = Some ty).
  { apply in_progress_cases in Hst as [-> | ->]; eexists; reflexivity. }
  destruct Hty as [ty Hty]. rewrite Hty in Hr.
  exists w', ty, (S (tsc_reads w)
                  + length (omap (retransmission w (next_tsc w))
                              (take i (mgmt_retry_queue w))))%nat.
  split; [exact Hrun|]. split; [exact Hty|]. split.
  { rewrite Hudp. rewrite <- (take_drop_middle _ i p Hi) at 1.
    now rewrite omap_app, omap_cons, Hr. }
  split; [lia|]. split.
  { rewrite (Hsess i p s Hi Hs), Hdue. reflexivity. }
  auto.
Qed.

Lemma mgmt_retry_past_timeout_retransmits_witness :
  exists w',
    mgmt_retry (ex_rpc SessionState.kDisconnectInProgress) = Ok (tt, w')
    /\ (exists k, sessions w' !! 1%N
                  = Some (Session.set_mgmt_req_tsc
                            (ex_session SessionState.kDisconnectInProgress 0)
                            (rdtsc_value (ex_tsc k))))
    /\ mgmt_retry_queue w' = [1%N]
    /\ session_vec w' = [1%N]
    /\ handler_calls w' = [].
Proof.
  destruct (mgmt_retry_past_timeout_retransmits
              (ex_rpc SessionState.kDisconnectInProgress) 0 1%N
              (ex_session SessionState.kDisconnectInProgress 0))
    as (w' & ty & k & Hrun & _ & _ & _ & Hs & Hq & Hv & Hc).
  - apply ex_rpc_inv. reflexivity.
  - apply ex_rpc_timestamps.
  - reflexivity.
  - apply lookup_singleton_eq.
  - vm_compute. reflexivity.
  - exists w'. split; [exact Hrun|]. split; [exists k; exact Hs|].
    repeat split; assumption.
Defined.

(** C1.  The scan does not promote a session whose timeout has passed: on
    a 1 GHz machine a connecting session whose last request left at cycle 0
    is scanned at cycle 60000000, past [kSessionMgmtTimeoutMs]; after the
    scan it is still connecting and not in the error state, the handler was
    not invoked, so no connect-failed event was emitted, the session is
    still queued and its slot of the session table still holds it. *)
Lemma mgmt_retry_timeout_not_promoted :
  mgmt_retry_queue (ex_rpc SessionState.kConnectInProgress) = [1%N]
  /\ sessions (ex_rpc SessionState.kConnectInProgress) !! 1%N
     = Some (ex_session SessionState.kConnectInProgress 0)
  /\ timeout_passed ex_nexus
       (next_tsc (ex_rpc SessionState.kConnectInProgress))
       (ex_session SessionState.kConnectInProgress 0) = true
  /\ exists w',
       mgmt_retry (ex_rpc SessionState.kConnectInProgress) = Ok (tt, w')
       /\ Session.state <$> sessions w' !! 1%N
          = Some SessionState.kConnectInProgress
       /\ handler_calls w' = []
       /\ mgmt_retry_queue w' = [1%N]
       /\ session_vec w' = [1%N].
Proof.
  split; [reflexivity|]. split; [apply lookup_singleton_eq|].
  split; [vm_compute; reflexivity|].
  eexists. split; [vm_compute; reflexivity|].
  repeat split; vm_compute; reflexivity.
Qed.

(** The scan as it is written brings no session to a terminal state, how
    often it runs: any number of scans in a row, over which the cycle
    counter advances, run to their end, every session keeps its state, the
    retry queue is as before and its sessions are still in progress, and
    the handler is not invoked. *)
Theorem mgmt_retry_times_stays_in_progress (n : nat) (w : Rpc) :
  mgmt_retry_queue w <> [] ->
  retry_queue_inv w ->
  timestamps_behind w ->
  tsc_advances w (n * S (length (mgmt_retry_queue w))) ->
  exists w',
    mgmt_retry_times n w = Ok (tt, w')
    /\ mgmt_retry_queue w' = mgmt_retry_queue w
    /\ handler_calls w' = handler_calls w
    /\ (forall p s, sessions w !! p = Some s ->
          exists s', sessions w' !! p = Some s'
                     /\ Session.state s' = Session.state s)
    /\ (forall p, p ∈ mgmt_retry_queue w' ->
          exists s', sessions w' !! p = Some s'
                     /\ terminal (Session.state s') = false).
Proof.
  intros Hne Hinv Hts Hadv.
  destruct (mgmt_retry_times_run n w Hne Hinv Hts Hadv) as (w' & Hrun & F).
  pose proof (retry_frame_inv w w' F Hinv) as [_ Hq'].
  destruct F. exists w'. repeat (split; [assumption|]). split.
  - intros p s Hs. destruct (rf_live0 p s Hs) as [t Ht].
    exists (Session.set_mgmt_req_tsc s t). split; [exact Ht | reflexivity].
  - intros p Hp. destruct (Hq' p Hp) as [_ (s' & Hs' & _ & Hst)].
    exists s'. split; [exact Hs'|].
    apply in_progress_cases in Hst as [-> | ->]; reflexivity.
Qed.

Lemma mgmt_retry_times_stays_in_progress_witness :
  exists w',
    mgmt_retry_times 3 (ex_rpc SessionState.kConnectInProgress) = Ok (tt, w')
    /\ mgmt_retry_queue w' = [1%N]
    /\ handler_calls w' = []
    /\ exists s', sessions w' !! 1%N = Some s'
                  /\ Session.state s' = SessionState.kConnectInProgress.
Proof.
  destruct (mgmt_retry_times_stays_in_progress 3
              (ex_rpc SessionState.kConnectInProgress))
    as (w' & Hrun & Hq & Hc & Hst & _).
  - discriminate.
  - apply ex_rpc_inv. reflexivity.
  - apply ex_rpc_timestamps.
  - apply ex_rpc_tsc_advances.
  - exists w'. split; [exact Hrun|]. split; [exact Hq|]. split; [exact Hc|].
    apply (Hst 1%N (ex_session SessionState.kConnectInProgress 0)).
    apply lookup_singleton_eq.
Defined.

(** C2.  No terminal state is reached within the timeout and a tick: the
    session is connecting since cycle 0 on a 1 GHz machine, every request is
    lost so that no response arrives, and [mgmt_retry] runs at 60 ms, 120 ms
    and 180 ms.  After the third scan, with the counter at 240 ms, the
    session is still connecting, the handler was never invoked, so no
    connect-failed event was seen, and three connect requests have left. *)
Lemma mgmt_retry_scans_no_terminal_state :
  exists w',
    (mgmt_retry ;; mgmt_retry ;; mgmt_retry)
      (ex_rpc SessionState.kConnectInProgress) = Ok (tt, w')
    /\ next_tsc w' = 240000000
    /\ timeout_passed ex_nexus (next_tsc w')
         (ex_session SessionState.kConnectInProgress 0) = true
    /\ terminal <$> (Session.state <$> sessions w' !! 1%N) = Some false
    /\ handler_calls w' = []
    /\ mgmt_retry_queue w' = [1%N]
    /\ length (udp_out w') = 3%nat.
Proof.
  eexists. split; [vm_compute; reflexivity|].
  repeat split; vm_compute; reflexivity.
Qed.

(** C4, as the code has it.  The retry-queue invariant (every queued
    pointer is a live client session in state connect-in-progress or
    disconnect-in-progress, and no pointer is queued twice) is preserved by
    removing a session and by a scan; adding a session, which asserts the
    client role and the absence from the queue but not the state, preserves
    it when the session added is in one of the two in-progress states. *)
Theorem retry_queue_inv_preserved (w : Rpc) :
  retry_queue_inv w ->
  (forall session w',
     mgmt_retry_queue_add session w = Ok (tt, w') ->
     (forall s, sessions w !! session = Some s ->
                in_progress (Session.state s) = true) ->
     retry_queue_inv w' /\ session ∈ mgmt_retry_queue w')
  /\ (forall session w',
        mgmt_retry_queue_remove session w = Ok (tt, w') ->
        retry_queue_inv w' /\ session ∉ mgmt_retry_queue w')
  /\ (forall w', mgmt_retry w = Ok (tt, w') -> retry_queue_inv w').
Proof.
  intros Hinv. split; [|split].
  - intros p w' H Hst. split.
    + eapply mgmt_retry_queue_add_inv; eassumption.
    + apply mgmt_retry_queue_add_Ok in H as (s & _ & _ & _ & _ & ->).
      simpl. apply elem_of_app. right. apply list_elem_of_singleton. reflexivity.
  - intros p w' H. eapply mgmt_retry_queue_remove_inv; eassumption.
  - intros w' H. apply mgmt_retry_frame in H as [F _].
    eapply retry_frame_inv; eassumption.
Qed.

Lemma ex_rpc_idle_inv (st : SessionState.t) : retry_queue_inv (ex_rpc_idle st).
Proof.
  split; simpl; [apply NoDup_nil_2|]. intros p Hp. inversion Hp.
Defined.

Lemma retry_queue_inv_preserved_witness :
  (exists w',
     mgmt_retry_queue_add 1%N (ex_rpc_idle SessionState.kConnectInProgress)
     = Ok (tt, w')
     /\ retry_queue_inv w' /\ 1%N ∈ mgmt_retry_queue w')
  /\ (exists w',
        mgmt_retry_queue_remove 1%N (ex_rpc SessionState.kDisconnectInProgress)
        = Ok (tt, w')
        /\ retry_queue_inv w' /\ 1%N ∉ mgmt_retry_queue w')
  /\ (exists w',
        mgmt_retry (ex_rpc SessionState.kDisconnectInProgress) = Ok (tt, w')
        /\ retry_queue_inv w').
Proof.
  split; [|split].
  - destruct (mgmt_retry_queue_add 1%N (ex_rpc_idle SessionState.kConnectInProgress))
      as [[[] w']| | |] eqn:E; try (vm_compute in E; discriminate E).
    exists w'. split; [reflexivity|].
    apply (proj1 (retry_queue_inv_preserved _ (ex_rpc_idle_inv _)) 1%N w' E).
    intros s Hs. simpl in Hs. apply lookup_singleton_Some in Hs as [_ <-].
    reflexivity.
  - destruct (mgmt_retry_queue_remove 1%N (ex_rpc SessionState.kDisconnectInProgress))
      as [[[] w']| | |] eqn:E; try (vm_compute in E; discriminate E).
    exists w'. split; [reflexivity|].
    apply (proj1 (proj2 (retry_queue_inv_preserved _
                            (ex_rpc_inv SessionState.kDisconnectInProgress eq_refl)))
             1%N w' E).
  - destruct (mgmt_retry (ex_rpc SessionState.kDisconnectInProgress))
      as [[[] w']| | |] eqn:E; try (vm_compute in E; discriminate E).
    exists w'. split; [reflexivity|].
    apply (proj2 (proj2 (retry_queue_inv_preserved _
                            (ex_rpc_inv SessionState.kDisconnectInProgress eq_refl)))
             w' E).
Defined.

(** The claim C4 fails as stated for the add operation: a connected client
    session that is not queued passes every assertion of
    [mgmt_retry_queue_add], and the queue then holds a session that is in
    neither in-progress state. *)
Lemma mgmt_retry_queue_add_connected_breaks_inv :
  retry_queue_inv (ex_rpc_idle SessionState.kConnected)
  /\ exists w',
       mgmt_retry_queue_add 1%N (ex_rpc_idle SessionState.kConnected)
       = Ok (tt, w')
       /\ mgmt_retry_queue w' = [1%N]
       /\ Session.state <$> sessions w' !! 1%N = Some SessionState.kConnected
       /\ ~ retry_queue_inv w'.
Proof.
  split; [apply ex_rpc_idle_inv|].
  eexists. split; [vm_compute; reflexivity|].
  split; [vm_compute; reflexivity|]. split; [vm_compute; reflexivity|].
  intros [_ Hq]. destruct (Hq 1%N) as [_ (s & Hs & _ & Hst)].
  - vm_compute. left.
  - vm_compute in Hs. injection Hs as <-. discriminate Hst.
Qed.



(** C8.  For a session in state connect-in-progress, [destroy_session]
    returns false and changes nothing: not the state of the session, not the
    session table and not the retry queue. *)
Theorem destroy_session_mid_connect (w : Rpc) (session : ptr) (s : Session.t) :
  sessions w !! session = Some s ->
  Session.state s = SessionState.kConnectInProgress ->
  destroy_session session w = Ok (false, w).
Proof.
  intros Hs Hst.
  unfold destroy_session, is_session_ptr_client, bind, get, deref, ret.
  destruct (N.eqb session nullptr); simpl; [reflexivity|].
  rewrite Hs.
  destruct (Session.is_client s && _); simpl; [|reflexivity].
  rewrite Hs, Hst. reflexivity.
Qed.

Lemma destroy_session_mid_connect_witness :
  destroy_session 1%N (ex_rpc SessionState.kConnectInProgress)
  = Ok (false, ex_rpc SessionState.kConnectInProgress).
Proof.
  apply (destroy_session_mid_connect _ 1%N
           (ex_session SessionState.kConnectInProgress 0)).
  - apply lookup_singleton_eq.
  - reflexivity.
Defined.

(** * Further properties of the retry queue, the scan and the codec *)

(** ** Outcomes of the queue operations *)

Lemma filter_ne_notin (p : ptr) (l : list ptr) :
  p ∉ l -> filter (fun x => x <> p) l = l.
Proof.
  induction l as [|x l IH]; intros Hp; [reflexivity|].
  apply not_elem_of_cons in Hp as [Hne Hp].
  rewrite filter_cons_True by (intros ->; now apply Hne).
  now rewrite IH.
Qed.

Lemma filter_ne_head (p : ptr) (l : list ptr) :
  filter (fun x => x <> p) (p :: l) = filter (fun x => x <> p) l.
Proof. apply filter_cons_False. intros H. now apply H. Qed.

Lemma mgmt_retry_queue_add_run (p : ptr) (s : Session.t) (w : Rpc) :
  sessions w !! p = Some s ->
  mgmt_retry_queue_add p w =
  if negb (N.eqb p nullptr) && Session.is_client s
     && negb (bool_decide (p ∈ mgmt_retry_queue w))
  then Ok (tt, mkRpc (nexus w) (session_vec w) (mgmt_retry_queue w ++ [p])
                 (<[p := Session.set_mgmt_req_tsc s (next_tsc w)]> (sessions w))
                 (handler_calls w) (udp_out w) (tsc w) (S (tsc_reads w)))
  else AssertFail.
Proof.
  intros Hs. unfold mgmt_retry_queue_add.
  destruct (negb (N.eqb p nullptr)) eqn:Hp; [|now apply bind_AssertFail].
  rewrite (bind_run _ _ w w tt) by reflexivity.
  rewrite (bind_run _ _ w w s) by (unfold deref; now rewrite Hs).
  destruct (Session.is_client s) eqn:Hc; [|now apply bind_AssertFail].
  rewrite (bind_run _ _ w w tt) by reflexivity.
  rewrite (bind_run _ _ w w tt) by reflexivity.
  rewrite (bind_run _ _ w w (bool_decide (p ∈ mgmt_retry_queue w))) by reflexivity.
  destruct (bool_decide (p ∈ mgmt_retry_queue w)); [now apply bind_AssertFail|].
  rewrite (bind_run _ _ w w tt) by reflexivity.
  rewrite (bind_run _ _ w (with_tsc_reads w (S (tsc_reads w))) (next_tsc w))
    by reflexivity.
  unfold bind, store, modify, with_tsc_reads, with_sessions, with_mgmt_retry_queue.
  cbn. rewrite Hs. reflexivity.
Qed.

Lemma mgmt_retry_queue_remove_run (p : ptr) (s : Session.t) (w : Rpc) :
  sessions w !! p = Some s ->
  mgmt_retry_queue_remove p w =
  if negb (N.eqb p nullptr) && Session.is_client s
     && bool_decide (p ∈ mgmt_retry_queue w)
     && (Z.of_nat (length (filter (fun x => x <> p) (mgmt_retry_queue w)))
         =? u64 (Z.of_nat (length (mgmt_retry_queue w)) - 1))
  then Ok (tt, with_mgmt_retry_queue w
                 (filter (fun x => x <> p) (mgmt_retry_queue w)))
  else AssertFail.
Proof.
  intros Hs. unfold mgmt_retry_queue_remove.
  destruct (negb (N.eqb p nullptr)) eqn:Hp; [|now apply bind_AssertFail].
  rewrite (bind_run _ _ w w tt) by reflexivity.
  rewrite (bind_run _ _ w w s) by (unfold deref; now rewrite Hs).
  destruct (Session.is_client s) eqn:Hc; [|now apply bind_AssertFail].
  rewrite (bind_run _ _ w w tt) by reflexivity.
  rewrite (bind_run _ _ w w (bool_decide (p ∈ mgmt_retry_queue w))) by reflexivity.
  destruct (bool_decide (p ∈ mgmt_retry_queue w)); [|now apply bind_AssertFail].
  rewrite (bind_run _ _ w w tt) by reflexivity.
  rewrite (bind_run _ _ w w (mgmt_retry_queue w)) by reflexivity.
  unfold bind, modify, gets, assert, with_mgmt_retry_queue. cbn.
  destruct (_ =? _); reflexivity.
Qed.

(** X1.  For a live session, [mgmt_retry_queue_add] either passes all its
    assertions or fails one of them: it succeeds exactly when the pointer is
    not null, the session is a client and it is not yet queued.  When it
    succeeds the session is appended at the back of the queue, is then
    reported by [mgmt_retry_queue_contains], carries the cycle count just
    read as its timestamp, and nothing else has changed. *)
Theorem mgmt_retry_queue_add_outcome (session : ptr) (s : Session.t) (w : Rpc) :
  sessions w !! session = Some s ->
  (session <> nullptr /\ Session.role s = Role.kClient
   /\ (session ∉ mgmt_retry_queue w) ->
   exists w',
     mgmt_retry_queue_add session w = Ok (tt, w')
     /\ mgmt_retry_queue w' = mgmt_retry_queue w ++ [session]
     /\ mgmt_retry_queue_contains session w' = Ok (true, w')
     /\ sessions w' !! session = Some (Session.set_mgmt_req_tsc s (next_tsc w))
     /\ (forall p, p <> session -> sessions w' !! p = sessions w !! p)
     /\ session_vec w' = session_vec w
     /\ handler_calls w' = handler_calls w
     /\ udp_out w' = udp_out w)
  /\ (session = nullptr \/ Session.role s = Role.kServer
      \/ session ∈ mgmt_retry_queue w ->
      mgmt_retry_queue_add session w = AssertFail).
Proof.
  intros Hs. rewrite (mgmt_retry_queue_add_run session s w Hs). split.
  - intros (Hp & Hc & Hq).
    apply N.eqb_neq in Hp. apply is_client_role in Hc. rewrite Hp, Hc.
    rewrite bool_decide_eq_false_2 by assumption. simpl.
    eexists. split; [reflexivity|]. simpl. split; [reflexivity|]. split.
    { unfold mgmt_retry_queue_contains, bind, gets, ret. simpl.
      rewrite bool_decide_eq_true_2; [reflexivity|].
      apply elem_of_app. right. now apply list_elem_of_singleton. }
    split; [apply lookup_insert_eq|]. split; [|auto].
    intros p Hne. apply lookup_insert_ne. congruence.
  - intros [-> | [Hr | Hq]].
    + reflexivity.
    + unfold Session.is_client. rewrite Hr. simpl.
      now rewrite andb_false_r.
    + rewrite (bool_decide_eq_true_2 _ Hq). simpl. now rewrite andb_false_r.
Qed.

Lemma mgmt_retry_queue_add_outcome_witness :
  (exists w',
     mgmt_retry_queue_add 1%N (ex_rpc_idle SessionState.kConnectInProgress)
     = Ok (tt, w')
     /\ mgmt_retry_queue w' = [1%N])
  /\ mgmt_retry_queue_add 1%N (ex_rpc SessionState.kConnectInProgress)
     = AssertFail.
Proof.
  split.
  - destruct (proj1 (mgmt_retry_queue_add_outcome 1%N
                       (ex_session SessionState.kConnectInProgress 0)
                       (ex_rpc_idle SessionState.kConnectInProgress)
                       (lookup_singleton_eq _ _)))
      as (w' & Hrun & Hq & _).
    + split; [discriminate|]. split; [reflexivity|]. simpl. apply not_elem_of_nil.
    + exists w'. split; assumption.
  - apply (proj2 (mgmt_retry_queue_add_outcome 1%N
                    (ex_session SessionState.kConnectInProgress 0)
                    (ex_rpc SessionState.kConnectInProgress)
                    (lookup_singleton_eq _ _))).
    right. right. simpl. left.
Defined.

Lemma u64_small (z : Z) : 0 <= z < 2 ^ 64 -> u64 z = z.
Proof. intros H. unfold u64. now apply Z.mod_small. Qed.

Lemma length_filter_ne_eq (p : ptr) (l : list ptr) :
  length (filter (fun x => x <> p) l) = length l -> p ∉ l.
Proof.
  intros Hlen Hp.
  pose proof (length_filter_lt (fun x => x <> p) l p Hp) as Hlt.
  assert (~ p <> p) by (intros H; now apply H). specialize (Hlt H). lia.
Qed.

(** X2.  For a live client session behind a non-null pointer and a queue of
    fewer than 2^64 entries, [mgmt_retry_queue_remove] succeeds exactly when
    the session is queued once: it then leaves the queue without that entry,
    the other entries in their order; a session that is not queued fails the
    containment assertion, and one that is queued twice fails the assertion
    on the size, since both entries are erased. *)
Theorem mgmt_retry_queue_remove_outcome
    (session : ptr) (s : Session.t) (w : Rpc) :
  session <> nullptr ->
  sessions w !! session = Some s ->
  Session.role s = Role.kClient ->
  Z.of_nat (length (mgmt_retry_queue w)) < 2 ^ 64 ->
  (forall l1 l2,
     mgmt_retry_queue w = l1 ++ session :: l2 ->
     session ∉ l1 -> session ∉ l2 ->
     mgmt_retry_queue_remove session w
     = Ok (tt, with_mgmt_retry_queue w (l1 ++ l2)))
  /\ (session ∉ mgmt_retry_queue w ->
      mgmt_retry_queue_remove session w = AssertFail)
  /\ (forall l1 l2 l3,
        mgmt_retry_queue w = l1 ++ session :: l2 ++ session :: l3 ->
        mgmt_retry_queue_remove session w = AssertFail).
Proof.
  intros Hp Hs Hc Hlen. rewrite (mgmt_retry_queue_remove_run session s w Hs).
  apply N.eqb_neq in Hp. apply is_client_role in Hc. rewrite Hp, Hc. simpl.
  split; [|split].
  - intros l1 l2 E H1 H2. rewrite E in Hlen |- *.
    rewrite bool_decide_eq_true_2
      by (apply elem_of_app; right; left).
    rewrite filter_app, filter_ne_head, !filter_ne_notin by assumption.
    rewrite !length_app in *. simpl length in *.
    rewrite u64_small by lia.
    replace (_ =? _) with true by (symmetry; apply Z.eqb_eq; lia).
    reflexivity.
  - intros Hq. now rewrite bool_decide_eq_false_2.
  - intros l1 l2 l3 E. rewrite E in Hlen |- *.
    rewrite bool_decide_eq_true_2 by (apply elem_of_app; right; left).
    rewrite filter_app, filter_ne_head, filter_app, filter_ne_head.
    pose proof (length_filter (fun x => x <> session) l1).
    pose proof (length_filter (fun x => x <> session) l2).
    pose proof (length_filter (fun x => x <> session) l3).
    rewrite !length_app in *. simpl length in *. rewrite length_app in *.
    simpl length in *. rewrite u64_small by lia.
    replace (_ =? _) with false by (symmetry; apply Z.eqb_neq; lia).
    reflexivity.
Qed.

Lemma mgmt_retry_queue_remove_outcome_witness :
  mgmt_retry_queue_remove 1%N (ex_rpc SessionState.kConnectInProgress)
  = Ok (tt, with_mgmt_retry_queue (ex_rpc SessionState.kConnectInProgress) [])
  /\ mgmt_retry_queue_remove 1%N (ex_rpc_idle SessionState.kConnectInProgress)
     = AssertFail
  /\ mgmt_retry_queue_remove 1%N ex_rpc_twice = AssertFail.
Proof.
  split; [|split].
  - apply (proj1 (mgmt_retry_queue_remove_outcome 1%N
                    (ex_session SessionState.kConnectInProgress 0)
                    (ex_rpc SessionState.kConnectInProgress)
                    ltac:(discriminate) (lookup_singleton_eq _ _) eq_refl
                    ltac:(vm_compute; reflexivity)) [] []);
      [reflexivity | apply not_elem_of_nil | apply not_elem_of_nil].
  - apply (proj1 (proj2 (mgmt_retry_queue_remove_outcome 1%N
                    (ex_session SessionState.kConnectInProgress 0)
                    (ex_rpc_idle SessionState.kConnectInProgress)
                    ltac:(discriminate) (lookup_singleton_eq _ _) eq_refl
                    ltac:(vm_compute; reflexivity)))).
    apply not_elem_of_nil.
  - apply (proj2 (proj2 (mgmt_retry_queue_remove_outcome 1%N
                    (ex_session SessionState.kConnectInProgress 0)
                    ex_rpc_twice
                    ltac:(discriminate) (lookup_singleton_eq _ _) eq_refl
                    ltac:(vm_compute; reflexivity))) [] [] []).
    reflexivity.
Defined.

(** X3.  Adding a session to the retry queue and removing it again gives the
    queue back as it was: of the whole Rpc only the timestamp of that
    session, now the cycle count read by the add, and the number of reads of
    the counter differ. *)
Theorem mgmt_retry_queue_add_remove (session : ptr) (s : Session.t) (w : Rpc) :
  session <> nullptr ->
  sessions w !! session = Some s ->
  Session.role s = Role.kClient ->
  session ∉ mgmt_retry_queue w ->
  Z.of_nat (length (mgmt_retry_queue w)) < 2 ^ 64 - 1 ->
  (mgmt_retry_queue_add session ;; mgmt_retry_queue_remove session) w
  = Ok (tt, mkRpc (nexus w) (session_vec w) (mgmt_retry_queue w)
              (<[session := Session.set_mgmt_req_tsc s (next_tsc w)]> (sessions w))
              (handler_calls w) (udp_out w) (tsc w) (S (tsc_reads w))).
Proof.
  intros Hp Hs Hc Hq Hlen.
  pose proof (mgmt_retry_queue_add_run session s w Hs) as Hadd.
  pose proof Hp as Hp'. pose proof Hc as Hc'.
  apply N.eqb_neq in Hp'. apply is_client_role in Hc'.
  rewrite Hp', Hc', (bool_decide_eq_false_2 _ Hq) in Hadd. simpl in Hadd.
  rewrite (bind_run _ _ _ _ _ Hadd).
  set (w1 := mkRpc _ _ (mgmt_retry_queue w ++ [session]) _ _ _ _ _).
  assert (Hs1 : sessions w1 !! session
                = Some (Session.set_mgmt_req_tsc s (next_tsc w)))
    by apply lookup_insert_eq.
  rewrite (mgmt_retry_queue_remove_run session _ w1 Hs1).
  rewrite Hp'. change (Session.is_client (Session.set_mgmt_req_tsc s (next_tsc w)))
    with (Session.is_client s). rewrite Hc'.
  subst w1. cbn [mgmt_retry_queue].
  rewrite bool_decide_eq_true_2 by (apply elem_of_app; right; left).
  rewrite filter_app, filter_ne_head, filter_ne_notin by assumption.
  simpl. rewrite app_nil_r, length_app. simpl length.
  rewrite u64_small by lia.
  replace (_ =? _) with true by (symmetry; apply Z.eqb_eq; lia).
  reflexivity.
Qed.

Lemma mgmt_retry_queue_add_remove_witness :
  exists w',
    (mgmt_retry_queue_add 1%N ;; mgmt_retry_queue_remove 1%N)
      (ex_rpc_idle SessionState.kConnectInProgress) = Ok (tt, w')
    /\ mgmt_retry_queue w' = [].
Proof.
  eexists. split.
  - apply (mgmt_retry_queue_add_remove 1%N
             (ex_session SessionState.kConnectInProgress 0)).
    + discriminate.
    + apply lookup_singleton_eq.
    + reflexivity.
    + apply not_elem_of_nil.
    + vm_compute. reflexivity.
  - reflexivity.
Defined.

(** ** What a scan checks and what it sends *)

Lemma mgmt_retry_loop_checks (cur_tsc : Z) (q : list ptr) :
  forall w w' : Rpc,
  mgmt_retry_loop cur_tsc q w = Ok (tt, w') ->
  forall p, p ∈ q ->
    p <> nullptr
    /\ exists s, sessions w !! p = Some s
                 /\ in_progress (Session.state s) = true.
Proof.
  induction q as [|x q IH]; intros w w' H p Hp; [inversion Hp|].
  simpl in H. apply bind_Ok in H as ([] & w1 & H1 & H).
  pose proof (mgmt_retry_body_frame _ _ _ _ H1) as [F _].
  apply mgmt_retry_body_Ok in H1 as (s & Hx & Hs & Hst & _).
  apply elem_of_cons in Hp as [->|Hp].
  - split; [assumption|]. exists s. split; assumption.
  - destruct (IH w1 w' H p Hp) as [Hn (s1 & Hs1 & Hst1)].
    split; [assumption|]. destruct F.
    destruct (sessions w !! p) as [s0|] eqn:Hs0.
    + destruct (rf_live0 p s0 Hs0) as [t Ht].
      assert (s1 = Session.set_mgmt_req_tsc s0 t) by congruence. subst s1.
      exists s0. split; [reflexivity | exact Hst1].
    + rewrite (rf_dead0 p Hs0) in Hs1. discriminate.
Qed.

(** X4.  A scan that runs to its end has found the queue as its assertions
    want it: the queue is not empty, and every queued pointer is not null
    and has behind it a live session in state connect-in-progress or
    disconnect-in-progress.  A queue that holds a session in any other
    state makes the scan fail. *)
Theorem mgmt_retry_checks_queue (w w' : Rpc) :
  mgmt_retry w = Ok (tt, w') ->
  mgmt_retry_queue w <> []
  /\ forall p, p ∈ mgmt_retry_queue w ->
       p <> nullptr
       /\ exists s, sessions w !! p = Some s
                    /\ in_progress (Session.state s) = true.
Proof.
  intros H. apply mgmt_retry_Ok in H as [Hne H]. split; [exact Hne|].
  intros p Hp. exact (mgmt_retry_loop_checks _ _ _ _ H p Hp).
Qed.

Lemma mgmt_retry_checks_queue_witness :
  mgmt_retry_queue (ex_rpc SessionState.kDisconnectInProgress) <> []
  /\ forall p, p ∈ mgmt_retry_queue (ex_rpc SessionState.kDisconnectInProgress) ->
       p <> nullptr
       /\ exists s, sessions (ex_rpc SessionState.kDisconnectInProgress) !! p = Some s
                    /\ in_progress (Session.state s) = true.
Proof.
  destruct (mgmt_retry (ex_rpc SessionState.kDisconnectInProgress))
    as [[[] w']| | |] eqn:E; try (vm_compute in E; discriminate E).
  exact (mgmt_retry_checks_queue _ _ E).
Defined.





Lemma mgmt_retry_body_quiet (cur_tsc : Z) (p : ptr) (s : Session.t) (w : Rpc) :
  p <> nullptr ->
  sessions w !! p = Some s ->
  in_progress (Session.state s) = true ->
  0 < elapsed_cycles cur_tsc (Session.mgmt_req_tsc s) ->
  retry_due (nexus w) cur_tsc s = false ->
  mgmt_retry_body cur_tsc p w = Ok (tt, w).
Proof.
  intros Hp Hs Hst Hel Hdue. apply N.eqb_neq in Hp. apply Z.ltb_lt in Hel.
  unfold mgmt_retry_body.
  rewrite (bind_run _ _ w w tt) by (now rewrite Hp).
  rewrite (bind_run _ _ w w s) by (unfold deref; now rewrite Hs).
  fold (in_progress (Session.state s)).
  rewrite (bind_run _ _ w w tt) by (now rewrite Hst).
  rewrite (bind_run _ _ w w tt) by (now rewrite Hel).
  rewrite (bind_run _ _ w w (nexus w)) by reflexivity.
  fold (retry_due (nexus w) cur_tsc s). now rewrite Hdue.
Qed.

(** X6.  A scan during which no queued session is due, the elapsed time of
    each being at most [kSessionMgmtRetransMs], sends nothing and writes
    nothing: it reads the cycle counter once and leaves the sessions, the
    queue and the UDP output as they are. *)
Theorem mgmt_retry_nothing_due (w : Rpc) :
  mgmt_retry_queue w <> [] ->
  (forall p, p ∈ mgmt_retry_queue w ->
     p <> nullptr
     /\ exists s, sessions w !! p = Some s
          /\ in_progress (Session.state s) = true
          /\ 0 < elapsed_cycles (next_tsc w) (Session.mgmt_req_tsc s)
          /\ retry_due (nexus w) (next_tsc w) s = false) ->
  mgmt_retry w = Ok (tt, with_tsc_reads w (S (tsc_reads w))).
Proof.
  intros Hne Hq. apply mgmt_retry_Ok. split; [exact Hne|].
  set (w0 := with_tsc_reads w (S (tsc_reads w))).
  assert (Hq0 : forall p, p ∈ mgmt_retry_queue w ->
            mgmt_retry_body (next_tsc w) p w0 = Ok (tt, w0)).
  { intros p Hp. destruct (Hq p Hp) as [Hn (s & Hs & Hst & Hel & Hdue)].
    now apply (mgmt_retry_body_quiet _ p s). }
  clear Hq Hne. induction (mgmt_retry_queue w) as [|x q IH]; [reflexivity|].
  simpl. rewrite (bind_run _ _ w0 w0 tt) by (apply Hq0; left).
  apply IH. intros p Hp. apply Hq0. now right.
Qed.

Lemma mgmt_retry_times_unqueued (n : nat) :
  forall (w w' : Rpc) (p : ptr),
  mgmt_retry_times n w = Ok (tt, w') ->
  p ∉ mgmt_retry_queue w ->
  sessions w' !! p = sessions w !! p.
Proof.
  induction n as [|n IH]; intros w w' p H Hp; simpl in H.
  - injection H as <-. reflexivity.
  - apply bind_Ok in H as ([] & w1 & H1 & H).
    apply mgmt_retry_frame in H1 as [F U].
    rewrite (IH w1 w' p H) by (destruct F; congruence).
    apply U, Hp.
Qed.

(** X7.  The scans touch queued sessions only: over any number of scans in a
    row a session that is not in the retry queue, such as one that
    [mgmt_retry_queue_remove] has just taken out, keeps every field,
    [mgmt_req_tsc] included. *)
Theorem mgmt_retry_times_leaves_unqueued
    (n : nat) (w0 w w' : Rpc) (session : ptr) :
  (session ∉ mgmt_retry_queue w ->
   mgmt_retry_times n w = Ok (tt, w') ->
   sessions w' !! session = sessions w !! session)
  /\ (mgmt_retry_queue_remove session w0 = Ok (tt, w) ->
      mgmt_retry_times n w = Ok (tt, w') ->
      sessions w' !! session = sessions w0 !! session).
Proof.
  split.
  - intros Hp H. exact (mgmt_retry_times_unqueued n w w' session H Hp).
  - intros Hrm H.
    apply mgmt_retry_queue_remove_Ok in Hrm as (s & _ & _ & _ & _ & ->).
    rewrite (mgmt_retry_times_unqueued n _ w' session H); [reflexivity|].
    simpl. intros Hin. apply list_elem_of_filter in Hin as [Hne _]. now apply Hne.
Qed.

(** X8.  Adding a session in one of the in-progress states and scanning
    right away is safe: when the retry-queue invariant and the precondition
    on the timestamps hold before the add and the cycle counter advances
    between the read of the add and the read of the scan, the add and the
    scan both run to their end, the session is queued and the invariant
    holds afterwards. *)
Theorem mgmt_retry_after_add (session : ptr) (s : Session.t) (w : Rpc) :
  retry_queue_inv w ->
  timestamps_behind w ->
  tsc_advances w 1 ->
  session <> nullptr ->
  sessions w !! session = Some s ->
  Session.role s = Role.kClient ->
  in_progress (Session.state s) = true ->
  session ∉ mgmt_retry_queue w ->
  exists w',
    (mgmt_retry_queue_add session ;; mgmt_retry) w = Ok (tt, w')
    /\ retry_queue_inv w'
    /\ mgmt_retry_queue w' = mgmt_retry_queue w ++ [session].
Proof.
  intros Hinv Hts Hadv Hp Hs Hc Hst Hq.
  pose proof (mgmt_retry_queue_add_run session s w Hs) as Hadd.
  pose proof Hp as Hp'. pose proof Hc as Hc'.
  apply N.eqb_neq in Hp'. apply is_client_role in Hc'.
  rewrite Hp', Hc', (bool_decide_eq_false_2 _ Hq) in Hadd. simpl in Hadd.
  set (w1 := mkRpc _ _ (mgmt_retry_queue w ++ [session]) _ _ _ _ _) in Hadd.
  assert (Hinv1 : retry_queue_inv w1).
  { apply (mgmt_retry_queue_add_inv session w w1 Hadd); [|exact Hinv].
    intros s' Hs'. congruence. }
  assert (Hnext : next_tsc w < next_tsc w1).
  { unfold next_tsc. subst w1. simpl. apply Hadv. lia. }
  assert (Hts1 : timestamps_behind w1).
  { intros p s1 Hp1 Hs1. subst w1. simpl in Hp1, Hs1.
    destruct (decide (p = session)) as [->|Hne].
    - rewrite lookup_insert_eq in Hs1. injection Hs1 as <-. simpl.
      split; [apply rdtsc_value_range | exact Hnext].
    - rewrite lookup_insert_ne in Hs1 by congruence.
      apply elem_of_app in Hp1 as [Hp1|Hp1].
      + pose proof (Hts p s1 Hp1 Hs1). lia.
      + apply list_elem_of_singleton in Hp1. contradiction. }
  destruct (mgmt_retry_run w1) as (w' & Hrun & _); [|exact Hinv1|exact Hts1|].
  { subst w1. simpl. now destruct (mgmt_retry_queue w). }
  exists w'. split; [|split].
  - unfold bind. rewrite Hadd. exact Hrun.
  - apply mgmt_retry_frame in Hrun as [F _].
    eapply retry_frame_inv; eassumption.
  - apply mgmt_retry_frame in Hrun as [[] _]. subst w1. assumption.
Qed.

Lemma mgmt_retry_nothing_due_witness :
  mgmt_retry (ex_rpc_recent SessionState.kConnectInProgress)
  = Ok (tt, with_tsc_reads (ex_rpc_recent SessionState.kConnectInProgress) 1).
Proof.
  apply mgmt_retry_nothing_due.
  - discriminate.
  - intros p Hp. simpl in Hp. apply list_elem_of_singleton in Hp. subst p.
    split; [discriminate|].
    exists (ex_session SessionState.kConnectInProgress 59000000).
    split; [apply lookup_singleton_eq|].
    repeat split; vm_compute; reflexivity.
Defined.

Lemma mgmt_retry_times_leaves_unqueued_witness :
  exists w w',
    mgmt_retry_queue_remove 1%N ex_rpc_two = Ok (tt, w)
    /\ mgmt_retry_times 2 w = Ok (tt, w')
    /\ sessions w' !! 1%N = sessions ex_rpc_two !! 1%N.
Proof.
  destruct (mgmt_retry_queue_remove 1%N ex_rpc_two)
    as [[[] w]| | |] eqn:E; try (vm_compute in E; discriminate E).
  destruct (mgmt_retry_times 2 w) as [[[] w']| | |] eqn:E';
    try (vm_compute in E; injection E as <-; vm_compute in E'; discriminate E').
  exists w, w'. split; [reflexivity|]. split; [exact E'|].
  exact (proj2 (mgmt_retry_times_leaves_unqueued 2 ex_rpc_two w w' 1%N) E E').
Defined.

Lemma mgmt_retry_after_add_witness :
  exists w',
    (mgmt_retry_queue_add 1%N ;; mgmt_retry)
      (ex_rpc_idle SessionState.kConnectInProgress) = Ok (tt, w')
    /\ retry_queue_inv w'
    /\ mgmt_retry_queue w' = [1%N].
Proof.
  apply (mgmt_retry_after_add 1%N (ex_session SessionState.kConnectInProgress 0)).
  - apply ex_rpc_idle_inv.
  - intros p s Hp. simpl in Hp. inversion Hp.
  - intros k Hk. simpl in Hk. assert (k = 0%nat) by lia. subst k.
    vm_compute. reflexivity.
  - discriminate.
  - apply lookup_singleton_eq.
  - reflexivity.
  - reflexivity.
  - apply not_elem_of_nil.
Defined.

(** ** The two senders and the response to their requests *)

Lemma send_connect_req_one_run (p : ptr) (s : Session.t) (w : Rpc) :
  p <> nullptr ->
  sessions w !! p = Some s ->
  send_connect_req_one p w =
  if Session.is_client s
     && SessionState.eqb (Session.state s) SessionState.kConnectInProgress
  then Ok (tt, with_udp_out w
                 (udp_out w ++ [request_datagram (nexus w)
                                  SessionMgmtPktType.kConnectReq s]))
  else AssertFail.
Proof.
  intros Hp Hs. apply N.eqb_neq in Hp. unfold send_connect_req_one.
  rewrite (bind_run _ _ w w tt) by (now rewrite Hp).
  rewrite (bind_run _ _ w w s) by (unfold deref; now rewrite Hs).
  destruct (Session.is_client s); [|now apply bind_AssertFail].
  rewrite (bind_run _ _ w w tt) by reflexivity.
  destruct (SessionState.eqb _ _); [|now apply bind_AssertFail].
  reflexivity.
Qed.

Lemma send_disconnect_req_one_run (p : ptr) (s : Session.t) (w : Rpc) :
  p <> nullptr ->
  sessions w !! p = Some s ->
  send_disconnect_req_one p w =
  if Session.is_client s
     && SessionState.eqb (Session.state s) SessionState.kDisconnectInProgress
  then Ok (tt, with_udp_out w
                 (udp_out w ++ [request_datagram (nexus w)
                                  SessionMgmtPktType.kDisconnectReq s]))
  else AssertFail.
Proof.
  intros Hp Hs. apply N.eqb_neq in Hp. unfold send_disconnect_req_one.
  rewrite (bind_run _ _ w w tt) by (now rewrite Hp).
  rewrite (bind_run _ _ w w s) by (unfold deref; now rewrite Hs).
  destruct (Session.is_client s); [|now apply bind_AssertFail].
  rewrite (bind_run _ _ w w tt) by reflexivity.
  destruct (SessionState.eqb _ _); [|now apply bind_AssertFail].
  reflexivity.
Qed.

(** X9.  For a live session behind a non-null pointer, each of the two
    senders either sends its request or fails an assertion, and they never
    both send: [send_connect_req_one] sends exactly for a client session in
    connect-in-progress, [send_disconnect_req_one] exactly for a client
    session in disconnect-in-progress; a server session, or a client session
    that is connected, disconnected or in error, is refused by both.  A
    null pointer is refused by both as well. *)
Theorem senders_accept_matching_state (session : ptr) (s : Session.t) (w : Rpc) :
  sessions w !! session = Some s ->
  (send_connect_req_one nullptr w = AssertFail
   /\ send_disconnect_req_one nullptr w = AssertFail)
  /\ (session <> nullptr ->
      ((exists w', send_connect_req_one session w = Ok (tt, w')) <->
       Session.role s = Role.kClient
       /\ Session.state s = SessionState.kConnectInProgress)
      /\ ((exists w', send_disconnect_req_one session w = Ok (tt, w')) <->
          Session.role s = Role.kClient
          /\ Session.state s = SessionState.kDisconnectInProgress)
      /\ (send_connect_req_one session w = AssertFail
          \/ send_disconnect_req_one session w = AssertFail)).
Proof.
  intros Hs. split; [split; reflexivity|]. intros Hp.
  rewrite (send_connect_req_one_run session s w Hp Hs).
  rewrite (send_disconnect_req_one_run session s w Hp Hs).
  rewrite <- is_client_role, <- !SessionState_eqb_eq.
  destruct (Session.is_client s), (Session.state s); simpl;
    (split; [|split]);
    try (right; reflexivity); try (left; reflexivity);
    try (split; [intros _; split; reflexivity | intros _; eexists; reflexivity]);
    (split; [intros [w' Hw]; discriminate Hw | intros [H1 H2]; discriminate]).
Qed.

Lemma senders_accept_matching_state_witness :
  (exists w',
     send_connect_req_one 1%N (ex_rpc SessionState.kConnectInProgress)
     = Ok (tt, w'))
  /\ send_disconnect_req_one 1%N (ex_rpc SessionState.kConnectInProgress)
     = AssertFail.
Proof.
  destruct (senders_accept_matching_state 1%N
              (ex_session SessionState.kConnectInProgress 0)
              (ex_rpc SessionState.kConnectInProgress)
              (lookup_singleton_eq _ _)) as [_ H].
  destruct H as (Hc & Hd & Hx); [discriminate|].
  split.
  - apply Hc. split; reflexivity.
  - reflexivity.
Defined.

Lemma SessionMetadata_eq_refl (a : SessionMetadata) : SessionMetadata_eq a a = true.
Proof.
  unfold SessionMetadata_eq. rewrite !Z.eqb_refl, !andb_true_r.
  apply Z.eqb_eq, strcmp_zero_iff. reflexivity.
Qed.




(** X11.  [send_resp_mut] answers a packet once: applied to a packet whose
    type is a response type it fails its assertion and sends nothing, and
    the packet it returns is such a packet, so that answering the answer
    fails. *)
Theorem send_resp_mut_only_requests
    (pkt : SessionMgmtPkt.t) (e e' : SessionMgmtErrType.t)
    (cfg : udp_config_t) (net : list Datagram) :
  (session_mgmt_is_pkt_type_req (SessionMgmtPkt.pkt_type pkt) = false ->
   send_resp_mut pkt e cfg net = AssertFail)
  /\ (forall pkt' net',
        send_resp_mut pkt e cfg net = Ok (pkt', net') ->
        send_resp_mut pkt' e' cfg net' = AssertFail).
Proof.
  split.
  - intros H. unfold send_resp_mut. apply bind_AssertFail.
    unfold assert. now rewrite H.
  - intros pkt' net' H. unfold send_resp_mut in H.
    apply bind_Ok in H as ([] & n1 & H1 & H). apply assert_Ok in H1 as [Hreq _].
    destruct pkt as [ty err c sv]. simpl in *.
    destruct ty; try discriminate Hreq; simpl in H;
      apply bind_Ok in H as ([] & n2 & _ & H); injection H as <- <-;
      reflexivity.
Qed.

Lemma send_resp_mut_only_requests_witness :
  send_resp_mut (ex_req SessionMgmtPktType.kConnectResp)
    SessionMgmtErrType.kNoError (udp_config ex_nexus) [] = AssertFail.
Proof.
  apply (proj1 (send_resp_mut_only_requests
                  (ex_req SessionMgmtPktType.kConnectResp)
                  SessionMgmtErrType.kNoError SessionMgmtErrType.kNoError
                  (udp_config ex_nexus) [])).
  reflexivity.
Defined.

Lemma c_str_terminated (name pad : list byte) :
  NUL ∉ name -> c_str (name ++ NUL :: pad) = name.
Proof.
  induction name as [|x name IH]; intros Hn; [reflexivity|].
  apply not_elem_of_cons in Hn as [Hx Hn]. simpl.
  destruct (Byte.eqb x NUL) eqn:E.
  - apply byte_eqb_true_iff in E. congruence.
  - now rewrite IH.
Qed.

(** X12.  [send_to] refuses a null destination with a failed assertion and
    sends nothing.  For a destination buffer that holds a name, its
    terminator and any padding, it hands the UDP client one datagram, behind
    those handed over before: the packet as it is, for the host of that
    name, on the management port and with the drop probability of the
    configuration; the padding behind the terminator plays no part. *)
Theorem send_to_outcome (pkt : SessionMgmtPkt.t) (cfg : udp_config_t)
    (net : list Datagram) :
  send_to pkt None cfg net = AssertFail
  /\ forall name pad,
       NUL ∉ name ->
       send_to pkt (Some (name ++ NUL :: pad)) cfg net
       = Ok (tt, net ++ [mkDatagram name (mgmt_udp_port cfg) (drop_prob cfg) pkt]).
Proof.
  split; [reflexivity|]. intros name pad Hn.
  unfold send_to, bind, assert, modify. simpl.
  now rewrite c_str_terminated.
Qed.

Lemma send_to_outcome_witness :
  send_to (ex_req SessionMgmtPktType.kConnectReq) (Some ex_server_host)
    (udp_config ex_nexus) []
  = Ok (tt, [mkDatagram [x73] 31850 (double_of_Z 0)
               (ex_req SessionMgmtPktType.kConnectReq)]).
Proof.
  apply (proj2 (send_to_outcome (ex_req SessionMgmtPktType.kConnectReq)
                  (udp_config ex_nexus) [])
           [x73] [x00; x00; x00; x00; x00; x00]).
  intros H. apply list_elem_of_singleton in H. discriminate H.
Defined.

(** ** Endpoint metadata: equality and names *)

Lemma SessionMetadata_eq_true_iff (a b : SessionMetadata) :
  SessionMetadata_eq a b = true <->
  c_str (hostname a) = c_str (hostname b)
  /\ app_tid a = app_tid b /\ session_num a = session_num b.
Proof.
  unfold SessionMetadata_eq.
  rewrite !andb_true_iff, !Z.eqb_eq, strcmp_zero_iff. tauto.
Qed.

(** X13.  [SessionMetadata::operator==] is an equivalence: every metadata
    record compares equal to itself, the result does not depend on the order
    of the two operands, and two records that both compare equal to a third
    compare equal to each other. *)
Theorem SessionMetadata_eq_equivalence :
  (forall a, SessionMetadata_eq a a = true)
  /\ (forall a b, SessionMetadata_eq a b = SessionMetadata_eq b a)
  /\ (forall a b c,
        SessionMetadata_eq a b = true -> SessionMetadata_eq b c = true ->
        SessionMetadata_eq a c = true).
Proof.
  split; [exact SessionMetadata_eq_refl|]. split.
  - intros a b.
    destruct (SessionMetadata_eq a b) eqn:Hab, (SessionMetadata_eq b a) eqn:Hba;
      try reflexivity.
    + apply SessionMetadata_eq_true_iff in Hab as (H1 & H2 & H3).
      assert (SessionMetadata_eq b a = true)
        by (apply SessionMetadata_eq_true_iff; auto).
      congruence.
    + apply SessionMetadata_eq_true_iff in Hba as (H1 & H2 & H3).
      assert (SessionMetadata_eq a b = true)
        by (apply SessionMetadata_eq_true_iff; auto).
      congruence.
  - intros a b c Hab Hbc.
    apply SessionMetadata_eq_true_iff in Hab as (H1 & H2 & H3).
    apply SessionMetadata_eq_true_iff in Hbc as (H4 & H5 & H6).
    apply SessionMetadata_eq_true_iff. repeat split; congruence.
Qed.

Lemma c_str_repeat_NUL (n : nat) : c_str (repeat NUL n) = [].
Proof. destruct n; reflexivity. Qed.

(** X14.  The two names of an end point depend on its location only: when
    two metadata records compare equal by [operator==], [name] gives the same
    string for both and so does [rpc_name], whatever their transport kind,
    port, start sequence and routing info.  A default-constructed record,
    whose session number is the invalid one, is named with [XX] in place of
    the session number and with the thread id 255. *)
Theorem SessionMetadata_names_follow_location
    (trim_hostname : string -> string) (a b : SessionMetadata) :
  (SessionMetadata_eq a b = true ->
   SessionMetadata_name trim_hostname a = SessionMetadata_name trim_hostname b
   /\ SessionMetadata_rpc_name trim_hostname a
      = SessionMetadata_rpc_name trim_hostname b)
  /\ (forall hlen rlen,
        SessionMetadata_name trim_hostname (SessionMetadata_default hlen rlen)
        = "[H: " +:+ trim_hostname "" +:+ ", R: 255, S: XX]").
Proof.
  split.
  - intros H. apply SessionMetadata_eq_true_iff in H as (H1 & H2 & H3).
    unfold SessionMetadata_name, SessionMetadata_rpc_name.
    now rewrite H1, H2, H3.
  - intros hlen rlen. unfold SessionMetadata_name, SessionMetadata_default.
    cbn [hostname app_tid session_num]. rewrite c_str_repeat_NUL.
    reflexivity.
Qed.

Lemma SessionMetadata_names_follow_location_witness :
  SessionMetadata_name (fun h => h) ex_client_md
  = SessionMetadata_name (fun h => h)
      (mkSessionMetadata TransportType.kInvalidTransport
         [x63; x00; x01; x02] 0 9 0 0 []).
Proof.
  apply (proj1 (SessionMetadata_names_follow_location (fun h => h) ex_client_md
                  (mkSessionMetadata TransportType.kInvalidTransport
                     [x63; x00; x01; x02] 0 9 0 0 []))).
  reflexivity.
Defined.

(** X15.  The names of the session states are pairwise different and none
    is the fallback [[Invalid state]]; the same holds of the names of the
    management events and their fallback [[Invalid event type]]. *)
Theorem session_names_distinct :
  (forall a b, session_state_str a = session_state_str b -> a = b)
  /\ (forall a, session_state_str a <> "[Invalid state]")
  /\ (forall a b,
        session_mgmt_event_type_str a = session_mgmt_event_type_str b -> a = b)
  /\ (forall a, session_mgmt_event_type_str a <> "[Invalid event type]").
Proof.
  split; [|split; [|split]].
  - intros [] []; simpl; intros H; try reflexivity; discriminate H.
  - intros []; discriminate.
  - intros [] []; simpl; intros H; try reflexivity; discriminate H.
  - intros []; discriminate.
Qed.

(** ** The cycle counter *)

Lemma land_shifted_low (hi lo : Z) :
  0 <= lo < 2 ^ 32 -> Z.land (hi * 2 ^ 32) lo = 0.
Proof.
  intros Hlo. apply Z.bits_inj'. intros n Hn.
  rewrite Z.land_spec, Z.bits_0.
  destruct (Z.lt_ge_cases n 32) as [Hlt|Hge].
  - rewrite Z.mul_pow2_bits_low by lia. reflexivity.
  - destruct (Z.eq_dec lo 0) as [->|Hne]; [now rewrite Z.bits_0, andb_false_r|].
    rewrite (Z.bits_above_log2 lo n), andb_false_r; [reflexivity|lia|].
    assert (Z.log2 lo < 32) by (apply Z.log2_lt_pow2; lia). lia.
Qed.

(** X16.  [rdtsc] returns a 64-bit count, and when the two registers hold
    32-bit halves, as the instruction leaves them, the count is the high
    half times 2^32 plus the low half. *)
Theorem rdtsc_value_halves :
  (forall regs, 0 <= rdtsc_value regs < 2 ^ 64)
  /\ (forall rax rdx,
        0 <= rax < 2 ^ 32 -> 0 <= rdx < 2 ^ 32 ->
        rdtsc_value (rax, rdx) = rdx * 2 ^ 32 + rax).
Proof.
  split; [exact rdtsc_value_range|]. intros rax rdx Ha Hd.
  unfold rdtsc_value, u64_shl. simpl fst. simpl snd.
  rewrite (u64_small rax), (u64_small rdx) by lia.
  rewrite Z.shiftl_mul_pow2 by lia. rewrite u64_small by nia.
  rewrite <- Z.add_lor_land, land_shifted_low by assumption. lia.
Qed.

Lemma rdtsc_value_halves_witness : rdtsc_value (5, 2) = 2 * 2 ^ 32 + 5.
Proof.
  apply (proj2 rdtsc_value_halves 5 2); vm_compute; split; congruence.
Defined.

(** ** Scanning on every tick *)

(** X17.  A scan leaves the Rpc ready for the next one: when the queue is
    not empty, the retry-queue invariant and the precondition on the
    timestamps hold and the cycle counter advances over the reads the scan
    makes, the scan runs to its end, after it the invariant holds and every
    queued timestamp is again behind the counter, and no timestamp has moved
    back. *)
Theorem mgmt_retry_restores_precondition (w : Rpc) :
  mgmt_retry_queue w <> [] ->
  retry_queue_inv w ->
  timestamps_behind w ->
  tsc_advances w (S (length (mgmt_retry_queue w))) ->
  exists w',
    mgmt_retry w = Ok (tt, w')
    /\ retry_queue_inv w'
    /\ timestamps_behind w'
    /\ forall p s s',
         p ∈ mgmt_retry_queue w ->
         sessions w !! p = Some s -> sessions w' !! p = Some s' ->
         Session.mgmt_req_tsc s <= Session.mgmt_req_tsc s'.
Proof.
  intros Hne Hinv Hts Hadv.
  destruct (mgmt_retry_run_again w 0 Hne Hinv Hts) as (w' & Hrun & F & Hts' & _).
  { now rewrite Nat.add_0_r. }
  exists w'. split; [exact Hrun|]. split; [eapply retry_frame_inv; eassumption|].
  split; [exact Hts'|].
  intros p s s' Hp Hs Hs'.
  destruct (mgmt_retry_run w Hne Hinv Hts) as (w2 & Hrun2 & _ & _ & Hsess).
  assert (w2 = w') by congruence. subst w2.
  pose proof (length_omap_le (retransmission w (next_tsc w)) (mgmt_retry_queue w))
    as Hle.
  apply list_elem_of_lookup in Hp as [i Hi].
  assert (Hp : p ∈ mgmt_retry_queue w) by (eapply list_elem_of_lookup_2; eassumption).
  rewrite (Hsess i p s Hi Hs) in Hs'. injection Hs' as <-.
  destruct (retry_due (nexus w) (next_tsc w) s); [|lia]. simpl.
  pose proof (Hts p s Hp Hs) as Hb.
  pose proof (length_omap_le (retransmission w (next_tsc w))
                (take i (mgmt_retry_queue w))) as Hle'.
  assert (Hti : (length (take i (mgmt_retry_queue w))
                 <= length (mgmt_retry_queue w))%nat)
    by (rewrite length_take; lia).
  assert (next_tsc w
          < rdtsc_value
              (tsc w (S (tsc_reads w
                         + length (omap (retransmission w (next_tsc w))
                                     (take i (mgmt_retry_queue w))))))).
  { unfold next_tsc at 1. eapply tsc_advances_lt; [exact Hadv|lia|lia|].
    destruct (mgmt_retry_queue w) as [|x q] eqn:E; [congruence|].
    destruct (lt_dec i (length (x :: q))) as [Hlt|Hge].
    - rewrite length_take in Hle'. simpl length in *. lia.
    - rewrite lookup_ge_None_2 in Hi by lia. discriminate. }
  lia.
Qed.

Lemma mgmt_retry_restores_precondition_witness :
  exists w',
    mgmt_retry (ex_rpc SessionState.kConnectInProgress) = Ok (tt, w')
    /\ retry_queue_inv w'
    /\ timestamps_behind w'.
Proof.
  destruct (mgmt_retry_restores_precondition
              (ex_rpc SessionState.kConnectInProgress))
    as (w' & Hrun & Hinv & Hts & _).
  - discriminate.
  - apply ex_rpc_inv. reflexivity.
  - apply ex_rpc_timestamps.
  - eapply tsc_advances_fewer; [|apply ex_rpc_tsc_advances]. simpl. lia.
  - exists w'. auto.
Defined.
